(** * Leaf-area measurement pipeline of [app.py]

    A shallow embedding of the two processing functions of the server,
    [detectar_qrcode_e_calcular_escala] and [segmentar_folha], and of the
    request handler [processar] that calls them, and the properties of
    the calibration-and-measurement pipeline proved on it.

    Numbers are modelled as the code has them: NumPy [float64] values are
    IEEE 754 binary64 numbers ([spec_float] with precision 53 and exponent
    bound 1024, rounding to nearest even), the detector's corner
    coordinates are binary32 numbers, and [astype(int)] gives 64-bit
    integers with wrap-around arithmetic.  The image handed to
    [segmentar_folha] is a mutable array: it lives in a store and is
    updated in place by the drawing calls. *)

From Stdlib Require Import ZArith Lia SpecFloat.
From stdpp Require Import base option list gmap strings pretty.

Open Scope Z_scope.

(** ** IEEE 754 numbers *)

(** A [float64] scalar.  The operations are those of [SpecFloat] at
    precision 53 and exponent bound 1024. *)
Definition float := spec_float.

(** A [float32] element of the detector's corner array. *)
Definition float32 := spec_float.

Definition f64_of_Z (z : Z) : float := binary_normalize 53 1024 z 0 false.
Definition f64_add : float → float → float := SFadd 53 1024.
Definition f64_mul : float → float → float := SFmul 53 1024.
Definition f64_div : float → float → float := SFdiv 53 1024.
Definition f64_sqrt : float → float := SFsqrt 53 1024.
Definition f64_sub : float → float → float := SFsub 53 1024.

(** [a > b] on floats; false as soon as one side is NaN. *)
Definition f64_gt (a b : float) : bool := SFltb b a.

(** The binary32 number [m * 2^e]. *)
Definition f32_of_dyadic (m e : Z) : float32 := binary_normalize 24 128 m e false.
Definition f32_of_Z (z : Z) : float32 := f32_of_dyadic z 0.

Definition pos_inf : float := S754_infinity false.
Definition pos_zero : float := S754_zero false.

(** ** 64-bit integers *)

Definition int64_min : Z := - 2 ^ 63.
Definition int64_max : Z := 2 ^ 63 - 1.

(** Two's complement wrap-around of an integer result. *)
Definition wrap64 (z : Z) : Z := (z + 2 ^ 63) mod 2 ^ 64 - 2 ^ 63.

(** The integer part of a finite float, rounding towards zero; [None] for
    NaN and the infinities. *)
Definition trunc_float (f : spec_float) : option Z :=
  match f with
  | S754_zero _ => Some 0
  | S754_finite s m e => Some (cond_Zopp s (Z.shiftl (Z.pos m) e))
  | S754_infinity _ | S754_nan => None
  end.

(** [x.astype(int)] on one element: the C conversion of a float to a 64-bit
    integer.  It discards the fractional part; a value that does not fit
    (or NaN, or an infinity) gives the smallest integer, as the x86-64
    conversion instruction does. *)
Definition astype_int (f : spec_float) : Z :=
  match trunc_float f with
  | Some z => if bool_decide (int64_min ≤ z ≤ int64_max) then z else int64_min
  | None => int64_min
  end.

(** ** Corner arrays *)

(** A point is an array of two coordinates, [x] then [y]. *)
Definition ponto (A : Type) : Type := A * A.

(** One row of the detector's corner array: four points, so that the whole
    array has the shape (k, 4, 2) the code assumes. *)
Record quad (A : Type) := Quad { q0 : ponto A; q1 : ponto A; q2 : ponto A; q3 : ponto A }.
Arguments Quad {A} _ _ _ _.
Arguments q0 {A} _.
Arguments q1 {A} _.
Arguments q2 {A} _.
Arguments q3 {A} _.

Definition ponto_map {A B} (f : A → B) (p : ponto A) : ponto B := (f p.1, f p.2).

Definition quad_map {A B} (f : A → B) (q : quad A) : quad B :=
  Quad (ponto_map f (q0 q)) (ponto_map f (q1 q)) (ponto_map f (q2 q)) (ponto_map f (q3 q)).

(** [vertices.astype(int)] on one row. *)
Definition quad_astype_int (q : quad float32) : quad Z := quad_map astype_int q.

(** ** NumPy operations on points *)

(** [a - b] on two integer points: elementwise, wrapping at 64 bits. *)
Definition ponto_sub (a b : ponto Z) : ponto Z := (wrap64 (a.1 - b.1), wrap64 (a.2 - b.2)).

(** [np.linalg.norm(x)] on an integer vector of two elements: the elements
    are converted to [float64], the vector is multiplied with itself
    ([x.dot(x)]) and the square root of the product is taken.  The dot
    product is a multiplication and an addition per element, each rounded;
    a fused multiply-add would give the same result wherever the squares
    are exact, as they are below [2^53]. *)
Definition linalg_norm (x : ponto Z) : float :=
  let x0 := f64_of_Z x.1 in
  let x1 := f64_of_Z x.2 in
  let sqnorm := f64_add (f64_mul x0 x0) (f64_mul x1 x1) in
  f64_sqrt sqnorm.

(** ** Python built-ins *)

(** [max(a, b)] on two floats: the first argument is kept unless the second
    compares greater. *)
Definition py_max (a b : float) : float := if f64_gt b a then b else a.

(** [max(items, key=key)] on a list whose first element is [x]: a later
    item replaces the current maximum only when its key compares greater,
    so the first of several greatest items is the one returned. *)
Definition py_max_key {A} (key : A → float) (x : A) (items : list A) : A :=
  foldl (λ m item, if f64_gt (key item) (key m) then item else m) x items.

(** ** Scale from the fiducial marker *)

(** [tamanho_real_cm = 3.6]: the [float64] nearest to 3.6, which is
    [0x1.ccccccccccccdp+1]. *)
Definition tamanho_real_cm : float := S754_finite false 8106479329266893 (-51).

Definition largura_pixels (v : quad Z) : float := linalg_norm (ponto_sub (q0 v) (q1 v)).
Definition altura_pixels (v : quad Z) : float := linalg_norm (ponto_sub (q2 v) (q3 v)).

(** The scale of one row of integer corners (lines 27 to 31). *)
Definition escala_do_quad (v : quad Z) : float :=
  f64_div tamanho_real_cm (py_max (largura_pixels v) (altura_pixels v)).

(** Lines 24 to 36 of [detectar_qrcode_e_calcular_escala]: what the function
    does with the corner array [vertices] the detector returned.  [None] is
    Python's [None], a list is an array of that many rows. *)
Definition escala_dos_vertices (vertices : option (list (quad float32))) : option float :=
  match vertices with
  | Some (v :: _) => Some (escala_do_quad (quad_astype_int v))
  | Some [] | None => None
  end.

(** ** Images and masks *)

(** A pixel of a three-channel 8-bit image: (B, G, R) as decoded, or
    (H, S, V) after the colour conversion. *)
Definition pixel : Type := Z * Z * Z.

(** An image is its rows of pixels; a mask is a one-channel image whose
    elements are 0 (background) or 255 (foreground). *)
Abbreviation image := (list (list pixel)).
Abbreviation mask := (list (list Z)).

Definition in_band (lowerb upperb px : pixel) : bool :=
  let '(l0, l1, l2) := lowerb in
  let '(u0, u1, u2) := upperb in
  let '(p0, p1, p2) := px in
  (l0 <=? p0) && (p0 <=? u0) && (l1 <=? p1) && (p1 <=? u1) && (l2 <=? p2) && (p2 <=? u2).

(** [cv2.inRange(src, lowerb, upperb)]: 255 where every channel lies
    between the bounds, bounds included, and 0 elsewhere. *)
Definition inRange (src : image) (lowerb upperb : pixel) : mask :=
  (λ row : list pixel, (λ px, if in_band lowerb upperb px then 255 else 0) <$> row) <$> src.

(** The element of a mask at row [i] and column [j]; nothing outside it. *)
Definition mask_at (m : mask) (i j : Z) : option Z :=
  if (i <? 0) || (j <? 0) then None
  else row ← m !! Z.to_nat i; row !! Z.to_nat j.

(** The offsets, relative to the anchor at the centre, of the non-zero
    elements of a structuring element. *)
Definition kernel_offsets (kernel : list (list Z)) : list (Z * Z) :=
  let ar := Z.of_nat (length kernel) / 2 in
  let ac := Z.of_nat (length (hd [] kernel)) / 2 in
  concat (imap (λ r row,
    omap id (imap (λ c e, if e =? 0 then None else Some (Z.of_nat r - ar, Z.of_nat c - ac)) row))
    kernel).

(** The mask elements under the structuring element placed at (i, j).
    With the default border of the morphological functions the positions
    outside the mask do not take part. *)
Definition neighbourhood (kernel : list (list Z)) (m : mask) (i j : Z) : list Z :=
  omap (λ d, mask_at m (i + d.1) (j + d.2)) (kernel_offsets kernel).

Definition dilate (src : mask) (kernel : list (list Z)) : mask :=
  imap (λ i row, imap (λ j _,
    foldr Z.max 0 (neighbourhood kernel src (Z.of_nat i) (Z.of_nat j))) row) src.

Definition erode (src : mask) (kernel : list (list Z)) : mask :=
  imap (λ i row, imap (λ j _,
    foldr Z.min 255 (neighbourhood kernel src (Z.of_nat i) (Z.of_nat j))) row) src.

Inductive MorphTypes := MORPH_ERODE | MORPH_DILATE | MORPH_OPEN | MORPH_CLOSE.

(** [cv2.morphologyEx(src, op, kernel)] with one iteration: opening is an
    erosion then a dilation, closing a dilation then an erosion. *)
Definition morphologyEx (src : mask) (op : MorphTypes) (kernel : list (list Z)) : mask :=
  match op with
  | MORPH_ERODE => erode src kernel
  | MORPH_DILATE => dilate src kernel
  | MORPH_OPEN => dilate (erode src kernel) kernel
  | MORPH_CLOSE => erode (dilate src kernel) kernel
  end.

(** [np.ones((rows, cols), np.uint8)] *)
Definition np_ones (rows cols : nat) : list (list Z) := replicate rows (replicate cols 1).

(** ** The OpenCV functions the pipeline calls *)

Inductive ColorConversionCodes := COLOR_BGR2HSV | COLOR_BGR2GRAY | COLOR_BGR2RGB.
Inductive RetrievalModes := RETR_EXTERNAL | RETR_LIST | RETR_CCOMP | RETR_TREE.
Inductive ContourApproximationModes := CHAIN_APPROX_NONE | CHAIN_APPROX_SIMPLE.
Inductive HersheyFonts := FONT_HERSHEY_SIMPLEX | FONT_HERSHEY_PLAIN.

(** A contour is the array of its boundary points. *)
Abbreviation contorno := (list (ponto Z)).

(** The library functions whose algorithms are not part of the repository.
    Each is a function of its arguments.  The two drawing functions give
    the new content of the array they are handed; the pipeline stores it
    back in that same array. [npy_pow] is the [**] of a [float64] scalar
    (the platform's [pow]). *)
Class OpenCV := {
  detectAndDecode : image → string * option (list (quad float32));
  cvtColor : image → ColorConversionCodes → image;
  findContours : mask → RetrievalModes → ContourApproximationModes → list contorno;
  contourArea : contorno → float;
  drawContours : image → list contorno → Z → pixel → Z → image;
  putText : image → string → ponto Z → HersheyFonts → Z → pixel → Z → image;
  npy_pow : float → Z → float
}.

(** ** Formatting *)

(** [m * 2^e] rounded to the nearest integer, ties to even. *)
Definition round_half_even (m e : Z) : Z :=
  if 0 <=? e then m * 2 ^ e
  else
    let d := 2 ^ (- e) in
    let q := m / d in
    match 2 * (m mod d) ?= d with
    | Lt => q
    | Gt => q + 1
    | Eq => if Z.even q then q else q + 1
    end.

(** [f"{x:.2f}"]: two digits after a period. *)
Definition format_2f (x : float) : string :=
  match x with
  | S754_nan => "nan"
  | S754_infinity s => (if s then "-" else "") +:+ "inf"
  | S754_zero s => (if s then "-" else "") +:+ "0.00"
  | S754_finite s m e =>
      let c := round_half_even (Z.pos m * 100) e in
      (if s then "-" else "") +:+ pretty (c / 100) +:+ "."
        +:+ pretty (c mod 100 / 10) +:+ pretty (c mod 10)
  end.

(** ** The store of image arrays *)

(** An array object is named by its identity; the store gives the content
    of each. *)
Definition loc := nat.
Abbreviation store := (gmap loc image).

(** Computations that read and update the store. *)
Definition ST (A : Type) : Type := store → A * store.

Definition st_ret {A} (x : A) : ST A := λ σ, (x, σ).
Definition st_bind {A B} (c : ST A) (k : A → ST B) : ST B :=
  λ σ, let '(x, σ') := c σ in k x σ'.

Notation "x ←' c ;; k" := (st_bind c (λ x, k))
  (at level 100, c at next level, right associativity).
Notation "c ;;' k" := (st_bind c (λ _, k))
  (at level 100, right associativity).

(** The content of an array. *)
Definition ler (l : loc) : ST image := λ σ, (σ !!! l, σ).

(** An in-place update of an array: the object stays, its content changes. *)
Definition modificar (l : loc) (f : image → image) : ST unit :=
  λ σ, (tt, <[l := f (σ !!! l)]> σ).

(** ** The pipeline *)

(** The three values [segmentar_folha] returns: the processed image, the
    area and the error message, each possibly [None]. *)
Definition resultado : Type := option loc * option float * option string.

Definition lower_green : pixel := (35, 55, 50).
Definition upper_green : pixel := (90, 255, 255).
Definition kernel : list (list Z) := np_ones 5 5.

Definition erro_qr : string := "QR Code não detectado. Não foi possível calcular a escala.".
Definition erro_folha : string := "Nenhuma folha foi detectada. Tente ajustar os limites de cor.".

Section Pipeline.
Context `{cv : OpenCV}.

(** Lines 21 to 36.  The two [print] calls are not modelled. *)
Definition detectar_qrcode_e_calcular_escala (imagem : image) : option float :=
  let '(dados, vertices) := detectAndDecode imagem in
  escala_dos_vertices vertices.

(** Lines 57 to 69: the mask the contours are searched in. *)
Definition mascara_da_folha (imagem : image) : mask :=
  let imagem_hsv := cvtColor imagem COLOR_BGR2HSV in
  let mascara := inRange imagem_hsv lower_green upper_green in
  let mascara := morphologyEx mascara MORPH_CLOSE kernel in
  let mascara := morphologyEx mascara MORPH_OPEN kernel in
  mascara.

(** Line 72. *)
Definition contornos_da_mascara (mascara : mask) : list contorno :=
  findContours mascara RETR_EXTERNAL CHAIN_APPROX_SIMPLE.

(** Lines 74 to 78: [None] when there is no contour, or else the
    contour [max(contornos, key=cv2.contourArea)]. *)
Definition maior_contorno (contornos : list contorno) : option contorno :=
  match contornos with
  | [] => None
  | c :: cs => Some (py_max_key contourArea c cs)
  end.

(** Line 82. *)
Definition area_cm2 (area_pixels escala_qr : float) : float :=
  f64_mul area_pixels (npy_pow escala_qr 2).

(** Line 86. *)
Definition texto (area : float) : string :=
  "Área da folha: " +:+ format_2f area +:+ " cm²".

(** Lines 85 and 87 on the content of the array. *)
Definition anotar (c : contorno) (area : float) (img : image) : image :=
  putText (drawContours img [c] (-1) (0, 255, 0) 2)
          (texto area) (50, 50) FONT_HERSHEY_SIMPLEX 1 (255, 0, 0) 2.

(** [segmentar_folha(imagem)], where [imagem] is the array the caller
    passed. *)
Definition segmentar_folha (imagem : loc) : ST resultado :=
  img ←' ler imagem ;;
  match detectar_qrcode_e_calcular_escala img with
  | None => st_ret (None, None, Some erro_qr)
  | Some escala_qr =>
      let contornos := contornos_da_mascara (mascara_da_folha img) in
      match maior_contorno contornos with
      | None => st_ret (None, None, Some erro_folha)
      | Some maior =>
          let area_pixels := contourArea maior in
          let area := area_cm2 area_pixels escala_qr in
          modificar imagem (λ img, drawContours img [maior] (-1) (0, 255, 0) 2) ;;'
          modificar imagem (λ img,
            putText img (texto area) (50, 50) FONT_HERSHEY_SIMPLEX 1 (255, 0, 0) 2) ;;'
          st_ret (Some imagem, Some area, None)
      end
  end.
End Pipeline.

(** ** A small executable instance

    An instance of [OpenCV] on which the pipeline can be run on the sample
    arrays below.  It stands in for the library on those arrays only: the
    marker is a block of black pixels, a contour is the bounding rectangle
    of the foreground, and the drawing functions paint the contour's
    corner points and clip a text that lies outside the array. *)
Module Amostra.

(** The positions (row, column) of the pixels that satisfy [p]. *)
Definition posicoes {A} (p : A → bool) (m : list (list A)) : list (Z * Z) :=
  concat (imap (λ i row,
    omap id (imap (λ j x, if p x then Some (Z.of_nat i, Z.of_nat j) else None) row)) m).

Definition minimo (d : Z) (l : list Z) : Z := foldr Z.min d l.
Definition maximo (d : Z) (l : list Z) : Z := foldr Z.max d l.

(** The bounding rectangle (top, left, bottom, right) of a non-empty list
    of positions. *)
Definition caixa (ps : list (Z * Z)) : option (Z * Z * Z * Z) :=
  match ps with
  | [] => None
  | p :: _ =>
      Some (minimo p.1 (fst <$> ps), minimo p.2 (snd <$> ps),
            maximo p.1 (fst <$> ps), maximo p.2 (snd <$> ps))
  end.

Definition preto (px : pixel) : bool :=
  let '(b, g, r) := px in (b =? 0) && (g =? 0) && (r =? 0).

Definition detectAndDecode (img : image) : string * option (list (quad float32)) :=
  match caixa (posicoes preto img) with
  | None => ("", None)
  | Some (t, l, b, r) =>
      ("", Some [Quad (f32_of_Z l, f32_of_Z t) (f32_of_Z r, f32_of_Z t)
                      (f32_of_Z r, f32_of_Z b) (f32_of_Z l, f32_of_Z b)])
  end.

(** Hue, saturation and value of a (B, G, R) pixel with integer
    divisions, hue halved to fit 8 bits. *)
Definition bgr2hsv (px : pixel) : pixel :=
  let '(b, g, r) := px in
  let v := Z.max b (Z.max g r) in
  let mn := Z.min b (Z.min g r) in
  let s := if v =? 0 then 0 else 255 * (v - mn) / v in
  let h :=
    if v =? mn then 0
    else if v =? r then 60 * (g - b) / (v - mn)
    else if v =? g then 120 + 60 * (b - r) / (v - mn)
    else 240 + 60 * (r - g) / (v - mn) in
  ((if h <? 0 then h + 360 else h) / 2, s, v).

Definition cvtColor (img : image) (code : ColorConversionCodes) : image :=
  match code with
  | COLOR_BGR2HSV => (λ row : list pixel, bgr2hsv <$> row) <$> img
  | _ => img
  end.

Definition findContours (m : mask) (mode : RetrievalModes)
    (method : ContourApproximationModes) : list contorno :=
  match caixa (posicoes (λ x, negb (x =? 0)) m) with
  | None => []
  | Some (t, l, b, r) => [[(l, t); (l, b); (r, b); (r, t)]]
  end.

(** The shoelace sum over the closed polygon, halved, without sign. *)
Definition contourArea (c : contorno) : float :=
  match reverse c with
  | [] => pos_zero
  | ultimo :: _ =>
      let passo (acc : float * ponto Z) (p : ponto Z) : float * ponto Z :=
        let prev := acc.2 in
        (f64_add acc.1
           (f64_sub (f64_mul (f64_of_Z prev.1) (f64_of_Z p.2))
                    (f64_mul (f64_of_Z prev.2) (f64_of_Z p.1))), p) in
      SFabs (f64_mul (foldl passo (pos_zero, ultimo) c).1 (S754_finite false 4503599627370496 (-53)))
  end.

(** The pixel at column [x] and row [y] set to [cor]; nothing outside
    the array. *)
Definition pintar (img : image) (p : ponto Z) (cor : pixel) : image :=
  if (p.1 <? 0) || (p.2 <? 0) then img
  else alter (λ row, <[Z.to_nat p.1 := cor]> row) (Z.to_nat p.2) img.

Definition drawContours (img : image) (cs : list contorno) (idx : Z)
    (cor : pixel) (thickness : Z) : image :=
  foldl (λ im p, pintar im p cor) img (concat cs).

Definition putText (img : image) (txt : string) (org : ponto Z)
    (font : HersheyFonts) (fontScale : Z) (cor : pixel) (thickness : Z) : image :=
  pintar img org cor.

Definition npy_pow (x : float) (n : Z) : float :=
  Z.iter (n - 1) (f64_mul x) x.

Definition cv : OpenCV :=
  Build_OpenCV detectAndDecode cvtColor findContours contourArea
               drawContours putText npy_pow.
End Amostra.

(** ** Sample arrays *)

Definition branco : pixel := (255, 255, 255).
Definition verde_folha : pixel := (0, 200, 0).

(** The rectangle of rows [t..b] and columns [l..r] filled with [cor]. *)
Definition retangulo (t l b r : Z) (cor : pixel) (img : image) : image :=
  imap (λ i row, imap (λ j px,
    if (t <=? Z.of_nat i) && (Z.of_nat i <=? b) && (l <=? Z.of_nat j) && (Z.of_nat j <=? r)
    then cor else px) row) img.

Definition fundo : image := replicate 16 (replicate 24 branco).

(** A white array of 16 rows and 24 columns with a black marker whose
    corners are 5 pixels apart and a green leaf of 7 by 6 pixels. *)
Definition imagem_amostra : image :=
  retangulo 5 12 10 18 verde_folha (retangulo 2 2 7 7 (0, 0, 0) fundo).

(** The same array without the marker, and without the leaf. *)
Definition imagem_sem_qr : image := retangulo 5 12 10 18 verde_folha fundo.
Definition imagem_sem_folha : image := retangulo 2 2 7 7 (0, 0, 0) fundo.

(** A marker of a single pixel: the four corners found coincide. *)
Definition imagem_ponto : image := retangulo 5 5 5 5 (0, 0, 0) fundo.

(** Two square contours, of 2 and of 4 pixels per side. *)
Definition contorno_pequeno : contorno := [(1, 1); (1, 3); (3, 3); (3, 1)].
Definition contorno_grande : contorno := [(10, 10); (10, 14); (14, 14); (14, 10)].


(** Corner rows used as examples: four coincident corners, a square whose
    corners lie on whole pixels, and a square of 100.5 pixels per side whose
    corners lie between pixels. *)
Definition quad_coincidente : quad float32 :=
  Quad (f32_of_Z 5, f32_of_Z 5) (f32_of_Z 5, f32_of_Z 5)
       (f32_of_Z 5, f32_of_Z 5) (f32_of_Z 5, f32_of_Z 5).

Definition quad_100 : quad float32 :=
  Quad (f32_of_Z 10, f32_of_Z 20) (f32_of_Z 110, f32_of_Z 20)
       (f32_of_Z 110, f32_of_Z 120) (f32_of_Z 10, f32_of_Z 120).

(** (10.25, 20.5), (110.75, 20.5), (110.75, 121.0), (10.25, 121.0) *)
Definition quad_subpixel : quad float32 :=
  Quad (f32_of_dyadic 41 (-2), f32_of_dyadic 41 (-1))
       (f32_of_dyadic 443 (-2), f32_of_dyadic 41 (-1))
       (f32_of_dyadic 443 (-2), f32_of_Z 121)
       (f32_of_dyadic 41 (-2), f32_of_Z 121).

(** (10.75, 20.25), (110.5, 20.75), (110.25, 121.5), (10.5, 121.25): other
    positions inside the same pixels as [quad_subpixel]. *)
Definition quad_subpixel' : quad float32 :=
  Quad (f32_of_dyadic 43 (-2), f32_of_dyadic 81 (-2))
       (f32_of_dyadic 221 (-1), f32_of_dyadic 83 (-2))
       (f32_of_dyadic 441 (-2), f32_of_dyadic 243 (-1))
       (f32_of_dyadic 21 (-1), f32_of_dyadic 485 (-2)).

(** ** Notions the properties are stated with *)

(** [a == b] on floats. *)
Definition f64_eqb (a b : float) : bool := SFeqb a b.

(** The canonical binary64 representation of [n], for [0 < n < 2^53], with
    sign [s]: a mantissa of exactly 53 bits. *)
Definition canon (s : bool) (n : Z) : float :=
  S754_finite s (Z.to_pos (n * 2 ^ (52 - Z.log2 n))) (Z.log2 n - 52).

(** The exact squared Euclidean distance of two integer points. *)
Definition dist2 (a b : ponto Z) : Z :=
  (a.1 - b.1) * (a.1 - b.1) + (a.2 - b.2) * (a.2 - b.2).

(** The Euclidean distance of two integer points as a [float64]: the
    square root of the exact squared distance, rounded once. *)
Definition distancia (a b : ponto Z) : float := f64_sqrt (f64_of_Z (dist2 a b)).

(** A binary32 number as the binary64 number of the same value. *)
Definition f64_of_f32 (f : float32) : float :=
  match f with
  | S754_finite s m e => binary_normalize 53 1024 (cond_Zopp s (Z.pos m)) e false
  | _ => f
  end.

(** The Euclidean distance of two corners as the detector returned them,
    without truncation. *)
Definition distancia_cantos (a b : ponto float32) : float :=
  let dx := f64_sub (f64_of_f32 a.1) (f64_of_f32 b.1) in
  let dy := f64_sub (f64_of_f32 a.2) (f64_of_f32 b.2) in
  f64_sqrt (f64_add (f64_mul dx dx) (f64_mul dy dy)).

(** The scale as the specification words it: the marker's side length over
    the larger of the distances between corners 0 and 1 and between corners
    2 and 3, taken on the corners as detected. *)
Definition escala_spec (v : quad float32) : float :=
  f64_div tamanho_real_cm
          (py_max (distancia_cantos (q0 v) (q1 v)) (distancia_cantos (q2 v) (q3 v))).

(** The row with the pair of corners 0 and 1 and the pair 2 and 3
    exchanged. *)
Definition trocar_lados {A} (v : quad A) : quad A := Quad (q2 v) (q3 v) (q0 v) (q1 v).

(** A float that is not negative in sign: NaN, or a zero, finite number or
    infinity with a clear sign bit. *)
Definition sem_sinal (f : float) : Prop :=
  match f with
  | S754_nan => True
  | S754_zero s | S754_infinity s | S754_finite s _ _ => s = false
  end.

(** The place of a float in the order of [SFcompare]: its class (from the
    negative infinity, -2, to the positive one, 2), then exponent and
    mantissa, both negated for negative numbers.  NaN has none. *)
Definition rank (f : float) : option (Z * Z * Z) :=
  match f with
  | S754_nan => None
  | S754_infinity true => Some (-2, 0, 0)
  | S754_infinity false => Some (2, 0, 0)
  | S754_zero _ => Some (0, 0, 0)
  | S754_finite true m e => Some (-1, - e, - Z.pos m)
  | S754_finite false m e => Some (1, e, Z.pos m)
  end.

Definition lex_lt (x y : Z * Z * Z) : Prop :=
  x.1.1 < y.1.1 ∨ (x.1.1 = y.1.1 ∧ (x.1.2 < y.1.2 ∨ (x.1.2 = y.1.2 ∧ x.2 < y.2))).

Definition lt_rank (a b : float) : Prop :=
  match rank a, rank b with
  | Some x, Some y => lex_lt x y
  | _, _ => False
  end.

(** [r] has taken the place of [m] as the maximum, or is [m]'s equal: its
    key is the same or compares greater. *)
Definition domina {A} (key : A → float) (r m : A) : Prop :=
  key r = key m ∨ f64_gt (key r) (key m) = true.

(** The three components of a result. *)
Definition res_imagem (r : resultado) : option loc := r.1.1.
Definition res_area (r : resultado) : option float := r.1.2.
Definition res_erro (r : resultado) : option string := r.2.

(** The store with the single array [img], at identity 0. *)
Definition store_de (img : image) : store := {[ 0%nat := img ]}.

(** A store with two arrays. *)
Definition store_de_duas : store := {[ 3%nat := imagem_amostra; 0%nat := imagem_sem_qr ]}.

(** ** The request handler *)

(** A value put in the dictionary handed to [jsonify]. *)
Inductive valor := VNull | VStr (s : string) | VNum (x : float).

Inductive ImreadModes := IMREAD_UNCHANGED | IMREAD_GRAYSCALE | IMREAD_COLOR.

(** The codec functions the handler calls.  A byte is a number from 0 to
    255.  [imdecode] gives [None] where the library returns [None];
    [b64encode] is [base64.b64encode] followed by the decoding of its
    result to a string. *)
Class Codecs := {
  imdecode : list Z → ImreadModes → option image;
  imencode : string → image → bool * list Z;
  b64encode : list Z → string
}.

(** The part of a request the handler reads: the uploaded files by field
    name, each with the bytes its [read()] returns. *)
Record pedido := Pedido { files : gmap string (list Z) }.

(** What the handler returns: the dictionary given to [jsonify] with the
    status code, or an exception that leaves the handler. *)
Inductive saida :=
  | Resposta (corpo : gmap string valor) (status : Z)
  | ErroInterno.

(** [np.frombuffer(b, np.uint8)]: the bytes as an array. *)
Definition np_frombuffer (b : list Z) : list Z := b.

(** The truth value of [erro] in [if erro:]. *)
Definition py_bool (erro : option string) : bool :=
  match erro with
  | None => false
  | Some s => negb (String.eqb s "")
  end.

Definition valor_de_texto (s : option string) : valor :=
  match s with Some s => VStr s | None => VNull end.

Definition valor_de_float (x : option float) : valor :=
  match x with Some x => VNum x | None => VNull end.

(** A new array with the given content. *)
Definition alocar (img : image) : ST loc :=
  λ σ, let l := fresh (dom σ) in (l, <[l := img]> σ).

Definition erro_sem_imagem : string := "Nenhuma imagem enviada.".
Definition erro_decodificar : string := "Erro ao decodificar a imagem.".

Section Servidor.
Context `{cv : OpenCV} `{cd : Codecs}.

(** [processar()] on the request [request] (lines 96 to 127). *)
Definition processar (request : pedido) : ST saida :=
  match files request !! "imagem" with
  | None => st_ret (Resposta {[ "erro" := VStr erro_sem_imagem ]} 400)
  | Some imagem_bytes =>
      let np_img := np_frombuffer imagem_bytes in
      match imdecode np_img IMREAD_COLOR with
      | None => st_ret (Resposta {[ "erro" := VStr erro_decodificar ]} 400)
      | Some decodificada =>
          imagem ←' alocar decodificada ;;
          r ←' segmentar_folha imagem ;;
          let '(imagem_processada, area, erro) := r in
          if py_bool erro then st_ret (Resposta {[ "erro" := valor_de_texto erro ]} 500)
          else
            match imagem_processada with
            | None => st_ret ErroInterno
            | Some l =>
                img ←' ler l ;;
                let buffer := (imencode ".png" img).2 in
                let imagem_base64 := b64encode buffer in
                st_ret (Resposta {[ "imagem_processada" := VStr imagem_base64;
                                    "area_foliar" := valor_de_float area ]} 200)
            end
      end
  end.
End Servidor.

(** A small executable instance of [Codecs]: an image file is the number
    of columns followed by the three channels of each pixel, row after
    row; the text encoding writes each byte as two hexadecimal digits. *)
Module AmostraCodecs.

Definition de_pixels (bs : list Z) : list pixel :=
  (fix go (n : nat) (bs : list Z) : list pixel :=
     match n, bs with
     | S n, b :: g :: r :: bs => (b, g, r) :: go n bs
     | _, _ => []
     end) (length bs) bs.

Definition linhas {A} (w : nat) (l : list A) : list (list A) :=
  (fix go (n : nat) (l : list A) : list (list A) :=
     match n, l with
     | S n, _ :: _ => take w l :: go n (drop w l)
     | _, _ => []
     end) (length l) l.

Definition imdecode (bs : list Z) (flags : ImreadModes) : option image :=
  match bs with
  | w :: corpo =>
      if (0 <? w) && (Z.of_nat (length corpo) mod (3 * w) =? 0) && negb (length corpo =? 0)%nat
      then Some (linhas (Z.to_nat w) (de_pixels corpo))
      else None
  | [] => None
  end.

Definition imencode (ext : string) (img : image) : bool * list Z :=
  (true, Z.of_nat (length (hd [] img))
           :: concat ((λ px : pixel, [px.1.1; px.1.2; px.2]) <$> concat img)).

Definition hex (n : Z) : string :=
  match String.get (Z.to_nat n) "0123456789abcdef" with
  | Some c => String c ""
  | None => "?"
  end.

Definition b64encode (bs : list Z) : string :=
  foldr (λ b s, hex (b / 16) +:+ hex (b mod 16) +:+ s) "" bs.

Definition cd : Codecs := Build_Codecs imdecode imencode b64encode.
End AmostraCodecs.

(** Requests with the sample arrays, with a file that is no image, and
    without the file. *)
Definition pedido_de (img : image) : pedido :=
  Pedido {[ "imagem" := (AmostraCodecs.imencode ".png" img).2 ]}.
Definition pedido_invalido : pedido := Pedido {[ "imagem" := [0; 1; 2] ]}.
Definition pedido_vazio : pedido := Pedido {[ "arquivo" := [1; 2; 3] ]}.

(** ** Further notions the properties are stated with *)

(** The dictionary of a response. *)
Definition corpo_de (s : saida) : gmap string valor :=
  match s with Resposta corpo _ => corpo | ErroInterno => ∅ end.


(** A float that is a number: a zero, a finite number or an infinity. *)
Definition nao_nan (f : float) : Prop :=
  match f with S754_nan => False | _ => True end.

(** The row lengths of an image or of a mask. *)
Definition forma {A} (m : list (list A)) : list nat := length <$> m.

(** The mask after the closing, before the opening (line 68). *)
Definition mascara_fechada `{cv : OpenCV} (imagem : image) : mask :=
  morphologyEx (inRange (cvtColor imagem COLOR_BGR2HSV) lower_green upper_green)
               MORPH_CLOSE kernel.

(** An array of 6 by 6 pixels, all of the colour of the leaf. *)
Definition imagem_verde : image := replicate 6 (replicate 6 verde_folha).

(** The row with the corners of each pair in the other order. *)
Definition inverter_lados {A} (v : quad A) : quad A := Quad (q1 v) (q0 v) (q3 v) (q2 v).

(** The corners of a square turned by the angle of the 3-4-5 triangle:
    each side is the vector (3k, 4k) or (-4k, 3k), of length 5 times [k]. *)
Definition quad_inclinado (k : Z) : quad Z :=
  Quad (0, 0) (3 * k, 4 * k) (- k, 7 * k) (- 4 * k, 3 * k).

(** * Exact binary64 arithmetic on integers

    Integers below [2^53] are binary64 numbers, and sums, products and
    square roots whose exact result is such an integer are computed without
    rounding error. *)

(** The number of digits of a mantissa is its binary logarithm plus one. *)
Lemma digits2_pos_log2 p : Z.pos (digits2_pos p) = Z.log2 (Z.pos p) + 1.
Proof.
  assert (H : ∀ q, digits2_pos q = Pos.size q) by (induction q; simpl; congruence).
  rewrite H. destruct p; simpl; lia.
Qed.

Lemma Zdigits2_log2 m : 0 < m → Zdigits2 m = Z.log2 m + 1.
Proof. destruct m; try lia. intros _. apply digits2_pos_log2. Qed.

Lemma iter_xO_pow2 k q : Z.pos (Pos.iter xO q k) = Z.pos q * 2 ^ Z.pos k.
Proof.
  change (Pos.iter xO q k) with (shift_pos k q).
  rewrite Zpower.shift_pos_correct, Zpower.Zpower_pos_nat, Zpower.Zpower_nat_Z.
  rewrite positive_nat_Z. lia.
Qed.

(** Shifting right the zeros that a shift to the left brought in loses
    nothing: the round and sticky bits stay clear. *)
Lemma iter_shr_1 k : ∀ q,
  SpecFloat.iter_pos shr_1 k (Build_shr_record (Z.pos (Pos.iter xO q k)) false false)
  = Build_shr_record (Z.pos q) false false.
Proof.
  induction k as [k IH | k IH |]; intros q; simpl.
  - rewrite IH, IH. reflexivity.
  - rewrite IH, IH. reflexivity.
  - reflexivity.
Qed.

Lemma shr_exact m k e :
  0 < m → 0 ≤ k →
  shr (Build_shr_record (m * 2 ^ k) false false) e k = (Build_shr_record m false false, e + k).
Proof.
  intros Hm Hk. destruct m as [| q |]; try lia.
  destruct k as [| p |]; try lia; simpl shr.
  - rewrite Z.pow_0_r, Z.mul_1_r, Z.add_0_r. reflexivity.
  - rewrite <- iter_xO_pow2, iter_shr_1. reflexivity.
Qed.

(** Rounding a mantissa that holds the integer [n], shifted to the left to
    at least 53 bits, gives the canonical representation of [n]. *)
Lemma binary_round_aux_exact s mx ex n :
  0 < n < 2 ^ 53 → ex ≤ 0 → mx = n * 2 ^ (- ex) → 2 ^ 52 ≤ mx →
  binary_round_aux 53 1024 s mx ex loc_Exact = canon s n.
Proof.
  intros Hn Hex Hmx Hlo.
  assert (Hl : Z.log2 mx = Z.log2 n - ex).
  { subst mx. rewrite Z.log2_mul_pow2; lia. }
  assert (Hl52 : 52 ≤ Z.log2 mx) by (apply Z.log2_le_pow2; lia).
  assert (Hln : 0 ≤ Z.log2 n < 53).
  { split; [apply Z.log2_nonneg | apply Z.log2_lt_pow2; lia]. }
  set (m' := n * 2 ^ (52 - Z.log2 n)).
  assert (Hm' : 0 < m') by (unfold m'; apply Z.mul_pos_pos; [lia | apply Z.pow_pos_nonneg; lia]).
  assert (Hmx' : mx = m' * 2 ^ (Z.log2 n - 52 - ex)).
  { unfold m'. rewrite <- Z.mul_assoc, <- Z.pow_add_r by lia. subst mx. f_equal. f_equal. lia. }
  assert (Hlm' : Z.log2 m' = 52).
  { unfold m'. rewrite Z.log2_mul_pow2; lia. }
  unfold binary_round_aux, shr_fexp, fexp, emin.
  rewrite Zdigits2_log2 by lia. simpl shr_record_of_loc.
  replace (Z.max (Z.log2 mx + 1 + ex - 53) (3 - 1024 - 53) - ex) with (Z.log2 n - 52 - ex) by lia.
  rewrite Hmx' at 1. rewrite shr_exact by lia.
  simpl shr_m. simpl loc_of_shr_record. simpl round_nearest_even.
  rewrite Zdigits2_log2 by lia. rewrite Hlm'.
  replace (Z.max (52 + 1 + (ex + (Z.log2 n - 52 - ex)) - 53) (3 - 1024 - 53)
           - (ex + (Z.log2 n - 52 - ex))) with 0 by lia.
  simpl shr. simpl shr_m.
  destruct m' as [| q |] eqn:E; try lia.
  replace (ex + (Z.log2 n - 52 - ex) <=? 1024 - 53) with true by (symmetry; apply Z.leb_le; lia).
  unfold canon. fold m'. rewrite E. simpl Z.to_pos. f_equal. lia.
Qed.

Lemma pow2_le_of_log2 m k : 0 < m → k ≤ Z.log2 m → 2 ^ k ≤ m.
Proof.
  intros Hm Hk. destruct (Z.log2_spec m Hm) as [H _].
  destruct (Z.le_gt_cases 0 k).
  - etransitivity; [apply Z.pow_le_mono_r|exact H]; lia.
  - rewrite Z.pow_neg_r; lia.
Qed.

Lemma log2_bounds n : 0 < n < 2 ^ 53 → 0 ≤ Z.log2 n < 53.
Proof. intros. split; [apply Z.log2_nonneg | apply Z.log2_lt_pow2; lia]. Qed.

Lemma binary_round_exact s p e n :
  0 < n < 2 ^ 53 → e ≤ 0 → Z.pos p = n * 2 ^ (- e) →
  binary_round 53 1024 s p e = canon s n.
Proof.
  intros Hn He Hp. pose proof (log2_bounds n Hn) as Hln.
  assert (Hl : Z.log2 (Z.pos p) = Z.log2 n - e).
  { rewrite Hp, Z.log2_mul_pow2; lia. }
  unfold binary_round, fexp, emin. rewrite digits2_pos_log2, Hl.
  replace (Z.max (Z.log2 n - e + 1 + e - 53) (3 - 1024 - 53)) with (Z.log2 n - 52) by lia.
  unfold shl_align.
  destruct (Z.log2 n - 52 - e) as [| d | d] eqn:Hd.
  - apply binary_round_aux_exact; try lia. apply pow2_le_of_log2; lia.
  - apply binary_round_aux_exact; try lia. apply pow2_le_of_log2; lia.
  - apply binary_round_aux_exact; try lia.
    + rewrite iter_xO_pow2, Hp, <- Z.mul_assoc, <- Z.pow_add_r by lia. f_equal. f_equal. lia.
    + apply pow2_le_of_log2; [lia|]. rewrite iter_xO_pow2, Z.log2_mul_pow2 by lia. lia.
Qed.

Lemma f64_of_Z_pos n : 0 < n < 2 ^ 53 → f64_of_Z n = canon false n.
Proof.
  intros Hn. destruct n as [| p |]; try lia.
  apply binary_round_exact; simpl; lia.
Qed.

Lemma f64_of_Z_neg n : 0 < n < 2 ^ 53 → f64_of_Z (- n) = canon true n.
Proof.
  intros Hn. destruct n as [| p |]; try lia.
  apply binary_round_exact; simpl; lia.
Qed.

Lemma canon_mantissa n :
  0 < n < 2 ^ 53 → Z.pos (Z.to_pos (n * 2 ^ (52 - Z.log2 n))) = n * 2 ^ (52 - Z.log2 n).
Proof.
  intros Hn. pose proof (log2_bounds n Hn). apply Z2Pos.id.
  apply Z.mul_pos_pos; [lia | apply Z.pow_pos_nonneg; lia].
Qed.

Lemma canon_mantissa_lo n : 0 < n < 2 ^ 53 → 2 ^ 52 ≤ n * 2 ^ (52 - Z.log2 n).
Proof.
  intros Hn. pose proof (log2_bounds n Hn).
  apply pow2_le_of_log2.
  - apply Z.mul_pos_pos; [lia | apply Z.pow_pos_nonneg; lia].
  - rewrite Z.log2_mul_pow2; lia.
Qed.

(** Products, sums and square roots of canonical integers. *)
Lemma f64_mul_canon s1 s2 a b :
  0 < a → 0 < b → a * b < 2 ^ 53 →
  f64_mul (canon s1 a) (canon s2 b) = canon (xorb s1 s2) (a * b).
Proof.
  intros Ha Hb Hab.
  assert (Ha' : 0 < a < 2 ^ 53) by nia.
  assert (Hb' : 0 < b < 2 ^ 53) by nia.
  pose proof (log2_bounds a Ha'). pose proof (log2_bounds b Hb').
  pose proof (canon_mantissa_lo a Ha'). pose proof (canon_mantissa_lo b Hb').
  unfold f64_mul, canon at 1 2, SFmul.
  apply binary_round_aux_exact; try lia.
  rewrite Pos2Z.inj_mul, !canon_mantissa by lia.
  replace (- (Z.log2 a - 52 + (Z.log2 b - 52))) with ((52 - Z.log2 a) + (52 - Z.log2 b)) by lia.
  rewrite Z.pow_add_r by lia. ring.
Qed.

Lemma shl_align_fst m ex ez :
  ez ≤ ex → Z.pos (fst (shl_align m ex ez)) = Z.pos m * 2 ^ (ex - ez).
Proof.
  intros H. unfold shl_align.
  destruct (ez - ex) as [| d | d] eqn:Hd; simpl fst.
  - replace (ex - ez) with 0 by lia. lia.
  - lia.
  - rewrite iter_xO_pow2. f_equal. f_equal. lia.
Qed.

Lemma f64_add_canon a b :
  0 < a → 0 < b → a + b < 2 ^ 53 →
  f64_add (canon false a) (canon false b) = canon false (a + b).
Proof.
  intros Ha Hb Hab.
  assert (Ha' : 0 < a < 2 ^ 53) by lia.
  assert (Hb' : 0 < b < 2 ^ 53) by lia.
  pose proof (log2_bounds a Ha'). pose proof (log2_bounds b Hb').
  unfold f64_add, canon at 1 2, SFadd.
  set (ez := Z.min (Z.log2 a - 52) (Z.log2 b - 52)).
  unfold cond_Zopp. rewrite !shl_align_fst, !canon_mantissa by lia.
  assert (Hs : a * 2 ^ (52 - Z.log2 a) * 2 ^ (Z.log2 a - 52 - ez)
             + b * 2 ^ (52 - Z.log2 b) * 2 ^ (Z.log2 b - 52 - ez) = (a + b) * 2 ^ (- ez)).
  { rewrite <- !Z.mul_assoc, <- !Z.pow_add_r by lia.
    replace (52 - Z.log2 a + (Z.log2 a - 52 - ez)) with (- ez) by lia.
    replace (52 - Z.log2 b + (Z.log2 b - 52 - ez)) with (- ez) by lia. ring. }
  rewrite Hs.
  assert (0 < (a + b) * 2 ^ (- ez)).
  { apply Z.mul_pos_pos; [lia | apply Z.pow_pos_nonneg; lia]. }
  destruct ((a + b) * 2 ^ (- ez)) as [| p |] eqn:E; try lia.
  simpl binary_normalize. apply binary_round_exact; lia.
Qed.

Lemma sqrtrem_square q : 0 < q → Z.sqrtrem (q * q) = (q, 0).
Proof.
  intros Hq. pose proof (Z.sqrtrem_spec (q * q)) as H.
  destruct (Z.sqrtrem (q * q)) as [s r].
  destruct H as [H1 H2]; [nia|].
  assert (s = q) by nia. subst s. f_equal. lia.
Qed.

Lemma log2_square n : 0 < n → (Z.log2 (n * n) + 2) / 2 = Z.log2 n + 1.
Proof.
  intros Hn.
  pose proof (Z.log2_mul_below n n Hn Hn).
  pose proof (Z.log2_mul_above n n ltac:(lia) ltac:(lia)).
  Z.div_mod_to_equations. lia.
Qed.

Lemma f64_sqrt_canon_square n :
  0 < n → n * n < 2 ^ 53 → f64_sqrt (canon false (n * n)) = canon false n.
Proof.
  intros Hn Hnn.
  assert (Hn' : 0 < n < 2 ^ 53) by nia.
  assert (Hq' : 0 < n * n < 2 ^ 53) by nia.
  pose proof (log2_bounds n Hn') as Hl. pose proof (log2_bounds _ Hq') as Hlq.
  pose proof (log2_square n Hn) as Hh.
  set (lq := Z.log2 (n * n)) in *. set (l := Z.log2 n) in *.
  unfold f64_sqrt, canon at 1, SFsqrt. fold lq.
  assert (Hcore : SFsqrt_core_binary 53 1024 (Z.pos (Z.to_pos (n * n * 2 ^ (52 - lq)))) (lq - 52)
                  = (n * 2 ^ (52 - l), l - 52, loc_Exact)).
  { unfold SFsqrt_core_binary, fexp, emin.
    unfold lq at 1. rewrite canon_mantissa by lia. fold lq.
    rewrite Zdigits2_log2 by (apply Z.mul_pos_pos; [lia | apply Z.pow_pos_nonneg; lia]).
    rewrite Z.log2_mul_pow2 by lia. fold lq.
    rewrite !Z.div2_div.
    replace (52 - lq + lq + 1 + (lq - 52) + 1) with (lq + 2) by lia.
    rewrite Hh.
    assert (Hd : l - 52 ≤ (lq - 52) / 2).
    { Z.div_mod_to_equations. lia. }
    replace (Z.min (Z.max (l + 1 - 53) (3 - 1024 - 53)) ((lq - 52) / 2)) with (l - 52) by lia.
    assert (Hs : 0 < lq - 52 - 2 * (l - 52)).
    { pose proof (Z.log2_mul_below n n Hn Hn). fold lq l in H. lia. }
    destruct (lq - 52 - 2 * (l - 52)) as [| p |] eqn:Es; try lia.
    rewrite Z.shiftl_mul_pow2 by lia.
    replace (n * n * 2 ^ (52 - lq) * 2 ^ Z.pos p) with ((n * 2 ^ (52 - l)) * (n * 2 ^ (52 - l))).
    2:{ rewrite <- (Z.mul_assoc (n * n)), <- Z.pow_add_r by lia.
        replace (52 - lq + Z.pos p) with ((52 - l) + (52 - l)) by lia.
        rewrite Z.pow_add_r by lia. ring. }
    rewrite sqrtrem_square by (apply Z.mul_pos_pos; [lia | apply Z.pow_pos_nonneg; lia]).
    reflexivity. }
  rewrite Hcore. apply binary_round_aux_exact; try lia.
  - f_equal. f_equal. lia.
  - apply canon_mantissa_lo; lia.
Qed.

Lemma f64_of_Z_0 : f64_of_Z 0 = pos_zero.
Proof. reflexivity. Qed.

(** The constant 3.6 of the code is the correctly rounded quotient of 36
    by 10. *)
Example tamanho_real_cm_36_10 : tamanho_real_cm = f64_div (f64_of_Z 36) (f64_of_Z 10).
Proof. vm_compute. reflexivity. Qed.

(** The square does not depend on the sign. *)
Lemma f64_of_Z_opp_sq a : f64_mul (f64_of_Z (- a)) (f64_of_Z (- a)) = f64_mul (f64_of_Z a) (f64_of_Z a).
Proof.
  destruct a as [| p | p]; [reflexivity | |];
    unfold f64_of_Z, f64_mul; simpl binary_normalize; unfold binary_round;
    destruct (shl_align _ _ _) as [mz ez];
    unfold binary_round_aux;
    destruct (shr_fexp _ _ _ _ _) as [mrs e'];
    destruct (shr_fexp _ _ _ _ _) as [mrs' e''];
    destruct (shr_m mrs') as [| m | m]; try reflexivity;
    destruct (e'' <=? 1024 - 53); reflexivity.
Qed.

(** The square of an integer is computed exactly while it stays below
    [2^53]. *)
Lemma f64_mul_square a :
  a * a < 2 ^ 53 → f64_mul (f64_of_Z a) (f64_of_Z a) = f64_of_Z (a * a).
Proof.
  intros Ha.
  assert (Hpos : ∀ b, 0 < b → b * b < 2 ^ 53 →
            f64_mul (f64_of_Z b) (f64_of_Z b) = f64_of_Z (b * b)).
  { intros b Hb Hbb.
    rewrite (f64_of_Z_pos b) by nia. rewrite (f64_of_Z_pos (b * b)) by nia.
    rewrite f64_mul_canon by lia. reflexivity. }
  destruct (Z.lt_trichotomy a 0) as [H | [-> | H]].
  - rewrite <- (Z.opp_involutive a) at 1 2. rewrite f64_of_Z_opp_sq.
    rewrite Hpos by lia. f_equal. ring.
  - reflexivity.
  - apply Hpos; lia.
Qed.

(** So is the sum of two non-negative integers. *)
Lemma f64_add_of_Z a b :
  0 ≤ a → 0 ≤ b → a + b < 2 ^ 53 →
  f64_add (f64_of_Z a) (f64_of_Z b) = f64_of_Z (a + b).
Proof.
  intros Ha Hb Hab.
  destruct (Z.eq_dec a 0) as [-> | Ha0]; [| destruct (Z.eq_dec b 0) as [-> | Hb0]].
  - rewrite Z.add_0_l. destruct (Z.eq_dec b 0) as [-> | Hb0]; [reflexivity|].
    rewrite (f64_of_Z_pos b) by lia. reflexivity.
  - rewrite Z.add_0_r, (f64_of_Z_pos a) by lia. reflexivity.
  - rewrite (f64_of_Z_pos a), (f64_of_Z_pos b), (f64_of_Z_pos (a + b)) by lia.
    apply f64_add_canon; lia.
Qed.

(** The square root of a square is the integer itself. *)
Lemma f64_sqrt_square n :
  0 ≤ n → n * n < 2 ^ 53 → f64_sqrt (f64_of_Z (n * n)) = f64_of_Z n.
Proof.
  intros Hn Hnn. destruct (Z.eq_dec n 0) as [-> | Hn0]; [reflexivity|].
  rewrite (f64_of_Z_pos n), (f64_of_Z_pos (n * n)) by nia.
  apply f64_sqrt_canon_square; lia.
Qed.

Lemma wrap64_small z : int64_min ≤ z ≤ int64_max → wrap64 z = z.
Proof.
  unfold int64_min, int64_max, wrap64. intros H.
  rewrite Z.mod_small; lia.
Qed.

(** [np.linalg.norm] of an integer vector whose squared length is below
    [2^53] is the square root of the exact squared length. *)
Lemma linalg_norm_exact x :
  x.1 * x.1 + x.2 * x.2 < 2 ^ 53 →
  linalg_norm x = f64_sqrt (f64_of_Z (x.1 * x.1 + x.2 * x.2)).
Proof.
  intros H. unfold linalg_norm.
  rewrite !f64_mul_square by nia.
  rewrite f64_add_of_Z by nia. reflexivity.
Qed.

Lemma square_bound d e : d * d + e * e < 2 ^ 53 → - 2 ^ 27 < d < 2 ^ 27.
Proof.
  intros H. assert (0 ≤ e * e) by nia.
  assert (Hd : d * d < 2 ^ 53) by lia. clear H.
  split.
  - destruct (Z_lt_le_dec (- 2 ^ 27) d) as [|Hl]; [done|].
    assert (2 ^ 27 * 2 ^ 27 ≤ d * d) by nia. lia.
  - destruct (Z_lt_le_dec d (2 ^ 27)) as [|Hl]; [done|].
    assert (2 ^ 27 * 2 ^ 27 ≤ d * d) by nia. lia.
Qed.

Lemma ponto_sub_exact a b :
  dist2 a b < 2 ^ 53 → ponto_sub a b = (a.1 - b.1, a.2 - b.2).
Proof.
  unfold dist2, ponto_sub. intros H.
  pose proof (square_bound _ _ H).
  rewrite Z.add_comm in H. pose proof (square_bound _ _ H).
  rewrite !wrap64_small; [reflexivity | |]; unfold int64_min, int64_max; lia.
Qed.

(** The measured length of a side is the Euclidean distance of its two
    integer corners. *)
Lemma norm_sub_distancia a b :
  dist2 a b < 2 ^ 53 → linalg_norm (ponto_sub a b) = distancia a b.
Proof.
  intros H. rewrite ponto_sub_exact by done.
  rewrite linalg_norm_exact; [reflexivity | exact H].
Qed.

Lemma distancia_lado a b S :
  0 ≤ S → S * S < 2 ^ 53 → dist2 a b = S * S → distancia a b = f64_of_Z S.
Proof.
  intros HS HSS Hd. unfold distancia. rewrite Hd. apply f64_sqrt_square; lia.
Qed.

Lemma py_max_same a : py_max a a = a.
Proof. unfold py_max. destruct (f64_gt a a); reflexivity. Qed.

(** * Signs

    A length computed by [np.linalg.norm] is never a negative zero. *)

Lemma binary_round_aux_sem_sinal mx ex lx :
  sem_sinal (binary_round_aux 53 1024 false mx ex lx).
Proof.
  unfold binary_round_aux.
  destruct (shr_fexp _ _ _ _ _) as [mrs e'].
  destruct (shr_fexp _ _ _ _ _) as [mrs' e''].
  destruct (shr_m mrs') as [| m | m]; simpl; try done.
  destruct (e'' <=? 1024 - 53); done.
Qed.

Lemma f64_mul_self_sem_sinal x : sem_sinal (f64_mul x x).
Proof.
  destruct x as [s | s | | s m e]; simpl; try done; try (destruct s; done).
  replace (xorb s s) with false by (destruct s; done).
  apply binary_round_aux_sem_sinal.
Qed.

Lemma f64_add_sem_sinal x y : sem_sinal x → sem_sinal y → sem_sinal (f64_add x y).
Proof.
  destruct x as [sx | sx | | sx mx ex], y as [sy | sy | | sy my ey];
    simpl; intros; subst; try done.
  unfold f64_add, SFadd.
  set (p1 := (shl_align mx _ _).1). set (p2 := (shl_align my _ _).1).
  change (cond_Zopp false (Z.pos p1) + cond_Zopp false (Z.pos p2)) with (Z.pos (p1 + p2)).
  clearbody p1 p2. simpl binary_normalize. unfold binary_round.
  destruct (shl_align _ _ _) as [mz ez].
  apply binary_round_aux_sem_sinal.
Qed.

Lemma f64_sqrt_sem_sinal x : sem_sinal x → sem_sinal (f64_sqrt x).
Proof.
  destruct x as [s | s | | s m e]; simpl; intros; subst; try done.
  destruct (SFsqrt_core_binary _ _ _ _) as [[mz ez] lz].
  apply binary_round_aux_sem_sinal.
Qed.

Lemma linalg_norm_sem_sinal x : sem_sinal (linalg_norm x).
Proof.
  unfold linalg_norm.
  apply f64_sqrt_sem_sinal, f64_add_sem_sinal; apply f64_mul_self_sem_sinal.
Qed.

(** A length that compares equal to zero is the positive zero. *)
Lemma linalg_norm_zero x : f64_eqb (linalg_norm x) pos_zero = true → linalg_norm x = pos_zero.
Proof.
  pose proof (linalg_norm_sem_sinal x) as Hs.
  destruct (linalg_norm x) as [s | s | | s m e]; simpl in *; subst; try done.
Qed.

(** * The order of floats *)

Lemma SFltb_rank a b : SFltb a b = true ↔ lt_rank a b.
Proof.
  unfold SFltb, lt_rank, lex_lt.
  destruct a as [sa | sa | | sa ma ea], b as [sb | sb | | sb mb eb];
    try destruct sa; try destruct sb; simpl;
    try (split; [discriminate | lia]);
    try (split; [lia | reflexivity]);
    try (split; [intros []|intros _]; fail).
  all: change (Pos.compare_cont Eq ma mb) with (ma ?= mb)%positive;
         destruct (Z.compare_spec ea eb); try destruct (Pos.compare_spec ma mb);
         simpl; split; intros; try done; lia.
Qed.

Lemma f64_gt_trans a b c : f64_gt a b = true → f64_gt b c = true → f64_gt a c = true.
Proof.
  unfold f64_gt. rewrite !SFltb_rank. unfold lt_rank, lex_lt.
  destruct (rank a) as [[[? ?] ?]|], (rank b) as [[[? ?] ?]|], (rank c) as [[[? ?] ?]|];
    simpl; try done. lia.
Qed.

Lemma f64_gt_asym a b : f64_gt a b = true → f64_gt b a = false.
Proof.
  intros H. destruct (f64_gt b a) eqn:E; [|done].
  unfold f64_gt in *. rewrite SFltb_rank in H, E. unfold lt_rank, lex_lt in *.
  destruct (rank a) as [[[? ?] ?]|], (rank b) as [[[? ?] ?]|]; simpl in *; try done. lia.
Qed.

(** Nothing compares greater than [max(a, b)]. *)
Lemma py_max_greatest a b :
  (py_max a b = a ∨ py_max a b = b)
  ∧ f64_gt a (py_max a b) = false ∧ f64_gt b (py_max a b) = false.
Proof.
  unfold py_max. destruct (f64_gt b a) eqn:E.
  - split; [by right|]. split; [by apply f64_gt_asym|].
    destruct (f64_gt b b) eqn:E'; [|done]. by rewrite (f64_gt_asym _ _ E') in E'.
  - split; [by left|]. split; [|done].
    destruct (f64_gt a a) eqn:E'; [|done]. by rewrite (f64_gt_asym _ _ E') in E'.
Qed.

(** * Selecting with [max(..., key=...)] *)

Section MaxKey.
Context {A : Type} (key : A → float).

Lemma py_max_key_spec items : ∀ x,
  let r := py_max_key key x items in
  r ∈ x :: items ∧ domina key r x ∧ ∀ y, y ∈ items → f64_gt (key y) (key r) = false.
Proof.
  induction items as [| i items IH]; intros x; simpl.
  - split; [apply list_elem_of_here|]. split; [by left|].
    intros y Hy. by apply elem_of_nil in Hy.
  - unfold py_max_key in *. simpl.
    destruct (f64_gt (key i) (key x)) eqn:E.
    + destruct (IH i) as (Hin & Hdom & Hall). split; [by apply list_elem_of_further|]. split.
      * right. destruct Hdom as [-> | Hd]; [done|]. by eapply f64_gt_trans.
      * intros y Hy. apply elem_of_cons in Hy as [-> | Hy]; [|by apply Hall].
        destruct Hdom as [-> | Hd].
        -- destruct (f64_gt (key i) (key i)) eqn:E'; [|done].
           by rewrite (f64_gt_asym _ _ E') in E'.
        -- by apply f64_gt_asym.
    + destruct (IH x) as (Hin & Hdom & Hall). split.
      { apply elem_of_cons in Hin as [-> | Hin]; [apply list_elem_of_here|].
        by do 2 apply list_elem_of_further. }
      split; [done|].
      intros y Hy. apply elem_of_cons in Hy as [-> | Hy]; [|by apply Hall].
      destruct Hdom as [-> | Hd]; [done|].
      destruct (f64_gt (key i) (key (foldl _ x items))) eqn:E'; [|done].
      by rewrite (f64_gt_trans _ _ _ E' Hd) in E.
Qed.

(** The item returned is one of the list, and no item of the list has a
    key that compares greater than its key. *)
Lemma py_max_key_greatest x items :
  let r := py_max_key key x items in
  r ∈ x :: items ∧ ∀ y, y ∈ x :: items → f64_gt (key y) (key r) = false.
Proof.
  destruct (py_max_key_spec items x) as (Hin & Hdom & Hall). split; [done|].
  intros y Hy. apply elem_of_cons in Hy as [-> | Hy]; [|by apply Hall].
  destruct Hdom as [-> | Hd]; [|by apply f64_gt_asym].
  destruct (f64_gt (key x) (key x)) eqn:E'; [|done].
  by rewrite (f64_gt_asym _ _ E') in E'.
Qed.
End MaxKey.

(** * The scale estimation *)

Section Escala.
Context `{cv : OpenCV}.

(** The function is [escala_dos_vertices] on the corner array of the
    detector. *)
Lemma detectar_qrcode_e_calcular_escala_eq (imagem : image) :
  detectar_qrcode_e_calcular_escala imagem = escala_dos_vertices (detectAndDecode imagem).2.
Proof.
  unfold detectar_qrcode_e_calcular_escala. by destruct (detectAndDecode imagem).
Qed.

Lemma detectar_com_vertices (imagem : image) v rest :
  (detectAndDecode imagem).2 = Some (v :: rest) →
  detectar_qrcode_e_calcular_escala imagem = Some (escala_do_quad (quad_astype_int v)).
Proof. intros H. by rewrite detectar_qrcode_e_calcular_escala_eq, H. Qed.
End Escala.

Lemma escala_do_quad_zero t :
  f64_eqb (largura_pixels t) pos_zero = true →
  f64_eqb (altura_pixels t) pos_zero = true →
  escala_do_quad t = pos_inf.
Proof.
  unfold escala_do_quad, largura_pixels, altura_pixels. intros H1 H2.
  apply linalg_norm_zero in H1, H2. rewrite H1, H2. reflexivity.
Qed.

Lemma escala_do_quad_exact t :
  dist2 (q0 t) (q1 t) < 2 ^ 53 → dist2 (q2 t) (q3 t) < 2 ^ 53 →
  escala_do_quad t
  = f64_div tamanho_real_cm (py_max (distancia (q0 t) (q1 t)) (distancia (q2 t) (q3 t))).
Proof.
  intros H1 H2. unfold escala_do_quad, largura_pixels, altura_pixels.
  by rewrite !norm_sub_distancia.
Qed.

Lemma escala_do_quad_quadrado x y S :
  0 < S < 2 ^ 26 →
  escala_do_quad (Quad (x, y) (x + S, y) (x + S, y + S) (x, y + S))
  = f64_div tamanho_real_cm (f64_of_Z S).
Proof.
  intros HS.
  assert (HSS : S * S < 2 ^ 53).
  { assert (S * S < 2 ^ 26 * 2 ^ 26) by nia. lia. }
  assert (H1 : dist2 (x, y) (x + S, y) = S * S) by (unfold dist2; simpl; ring).
  assert (H2 : dist2 (x + S, y + S) (x, y + S) = S * S) by (unfold dist2; simpl; ring).
  rewrite escala_do_quad_exact by (simpl; lia). simpl q0. simpl q1. simpl q2. simpl q3.
  rewrite (distancia_lado _ _ S), (distancia_lado _ _ S) by lia.
  by rewrite py_max_same.
Qed.

(** C1 (as amended): for every image in which the detector returns corners
    whose two measured pixel lengths (corner 0 to corner 1, and corner 2 to
    corner 3) are both zero, the scale estimation does not reject: the code
    has no such guard, the division by the zero length is carried out, and
    the scale returned is positive infinity. *)
Theorem escala_degenerada_infinita `{cv : OpenCV} (imagem : image) v rest :
  (detectAndDecode imagem).2 = Some (v :: rest) →
  f64_eqb (largura_pixels (quad_astype_int v)) pos_zero = true →
  f64_eqb (altura_pixels (quad_astype_int v)) pos_zero = true →
  detectar_qrcode_e_calcular_escala imagem = Some pos_inf.
Proof.
  intros Hv H1 H2. rewrite (detectar_com_vertices _ _ _ Hv).
  by rewrite escala_do_quad_zero.
Qed.

(** C2 (as amended): for every image in which the detector returns four
    corners, the scale is 3.6 divided by the larger of the two lengths
    measured between the corners truncated to integers (corners 0 and 1,
    corners 2 and 3).  When the truncated corners of each pair are less than
    [2^26] pixels apart, each length is the Euclidean distance of the two
    integer points, rounded once; in particular, for truncated corners that
    form an axis-aligned square of [S] pixels per side the scale is exactly
    the quotient of 3.6 by [S]. *)
Theorem escala_dos_cantos_truncados `{cv : OpenCV} (imagem : image) v rest :
  (detectAndDecode imagem).2 = Some (v :: rest) →
  let t := quad_astype_int v in
  detectar_qrcode_e_calcular_escala imagem
  = Some (f64_div tamanho_real_cm
            (py_max (linalg_norm (ponto_sub (q0 t) (q1 t)))
                    (linalg_norm (ponto_sub (q2 t) (q3 t)))))
  ∧ (dist2 (q0 t) (q1 t) < 2 ^ 53 → dist2 (q2 t) (q3 t) < 2 ^ 53 →
     ∃ m, detectar_qrcode_e_calcular_escala imagem = Some (f64_div tamanho_real_cm m)
          ∧ (m = distancia (q0 t) (q1 t) ∨ m = distancia (q2 t) (q3 t))
          ∧ f64_gt (distancia (q0 t) (q1 t)) m = false
          ∧ f64_gt (distancia (q2 t) (q3 t)) m = false)
  ∧ (∀ x y S, 0 < S < 2 ^ 26 →
     t = Quad (x, y) (x + S, y) (x + S, y + S) (x, y + S) →
     detectar_qrcode_e_calcular_escala imagem = Some (f64_div tamanho_real_cm (f64_of_Z S))).
Proof.
  intros Hv t. rewrite (detectar_com_vertices _ _ _ Hv). fold t.
  split; [reflexivity|]. split.
  - intros H1 H2. eexists. split; [by rewrite escala_do_quad_exact|].
    apply py_max_greatest.
  - intros x y S HS ->. by rewrite escala_do_quad_quadrado.
Qed.

(** C8: for corners whose two measured sides have the same length, the
    scale is the same when the pair of corners 0 and 1 and the pair of
    corners 2 and 3 are exchanged. *)
Theorem escala_lados_trocados (v : quad float32) (rest rest' : list (quad float32)) :
  largura_pixels (quad_astype_int v) = altura_pixels (quad_astype_int v) →
  escala_dos_vertices (Some (trocar_lados v :: rest'))
  = escala_dos_vertices (Some (v :: rest)).
Proof.
  intros H. simpl. f_equal. unfold escala_do_quad.
  change (largura_pixels (quad_astype_int (trocar_lados v)))
    with (altura_pixels (quad_astype_int v)).
  change (altura_pixels (quad_astype_int (trocar_lados v)))
    with (largura_pixels (quad_astype_int v)).
  by rewrite H.
Qed.

Lemma astype_int_finite s m e :
  Z.pos m < 2 ^ (63 - e) →
  astype_int (S754_finite s m e) = cond_Zopp s (Z.shiftl (Z.pos m) e)
  ∧ 0 ≤ Z.shiftl (Z.pos m) e < 2 ^ 63.
Proof.
  intros Hm.
  assert (He : e ≤ 63).
  { destruct (Z_le_gt_dec e 63); [done|]. rewrite Z.pow_neg_r in Hm; lia. }
  assert (Hb : 0 ≤ Z.shiftl (Z.pos m) e < 2 ^ 63).
  { split; [apply Z.shiftl_nonneg; lia|].
    destruct (Z_le_gt_dec 0 e).
    - rewrite Z.shiftl_mul_pow2 by lia.
      replace (2 ^ 63) with (2 ^ (63 - e) * 2 ^ e) by (rewrite <- Z.pow_add_r; [f_equal|..]; lia).
      apply Z.mul_lt_mono_pos_r; [apply Z.pow_pos_nonneg|]; lia.
    - rewrite Z.shiftl_div_pow2 by lia.
      apply Z.div_lt_upper_bound; [apply Z.pow_pos_nonneg; lia|].
      rewrite <- Z.pow_add_r by lia. by replace (- e + 63) with (63 - e) by lia. }
  split; [|done]. unfold astype_int, trunc_float.
  rewrite bool_decide_eq_true_2; [done|].
  unfold int64_min, int64_max. destruct s; simpl; lia.
Qed.

(** C10: the scale is computed from the corner coordinates truncated to
    integers: two corner arrays with the same truncated coordinates give the
    same scale, whatever their fractional parts; and the truncation of a
    coordinate of magnitude below [2^63] keeps its sign and its integer
    part, the integer [z] with [z <= m * 2^e < z + 1]. *)
Theorem escala_ignora_subpixel (v v' : quad float32) (rest rest' : list (quad float32)) :
  quad_astype_int v = quad_astype_int v' →
  escala_dos_vertices (Some (v :: rest)) = escala_dos_vertices (Some (v' :: rest'))
  ∧ escala_dos_vertices (Some (v :: rest)) = Some (escala_do_quad (quad_astype_int v))
  ∧ ∀ s m e, Z.pos m < 2 ^ (63 - e) →
      let z := astype_int (S754_finite s m e) in
      z = cond_Zopp s (Z.abs z)
      ∧ Z.abs z * 2 ^ Z.max 0 (- e) ≤ Z.pos m * 2 ^ Z.max 0 e
        < (Z.abs z + 1) * 2 ^ Z.max 0 (- e).
Proof.
  intros H. split; [simpl; by rewrite H|]. split; [reflexivity|].
  intros s m e Hm z. destruct (astype_int_finite s m e Hm) as [Hz Hb].
  subst z. rewrite Hz. clear Hz.
  set (a := Z.shiftl (Z.pos m) e) in *.
  assert (Ha : Z.abs (cond_Zopp s a) = a) by (destruct s; simpl; lia).
  rewrite Ha. split; [done|].
  destruct (Z_le_gt_dec 0 e).
  - rewrite (Z.max_l 0 (- e)), (Z.max_r 0 e) by lia. subst a.
    rewrite Z.shiftl_mul_pow2 by lia. lia.
  - rewrite (Z.max_r 0 (- e)), (Z.max_l 0 e) by lia. subst a.
    rewrite Z.shiftl_div_pow2 by lia.
    assert (Hd : 0 < 2 ^ (- e)) by (apply Z.pow_pos_nonneg; lia).
    pose proof (Z.mul_div_le (Z.pos m) _ Hd).
    pose proof (Z.mul_succ_div_gt (Z.pos m) _ Hd). lia.
Qed.

(** * The pipeline *)

Section Propriedades.
Context `{cv : OpenCV}.

(** The three ways [segmentar_folha] ends. *)
Lemma segmentar_folha_casos (imagem : loc) (σ : store) :
  segmentar_folha imagem σ =
  match detectar_qrcode_e_calcular_escala (σ !!! imagem) with
  | None => ((None, None, Some erro_qr), σ)
  | Some escala_qr =>
      match maior_contorno (contornos_da_mascara (mascara_da_folha (σ !!! imagem))) with
      | None => ((None, None, Some erro_folha), σ)
      | Some c =>
          let area := area_cm2 (contourArea c) escala_qr in
          ((Some imagem, Some area, None), <[imagem := anotar c area (σ !!! imagem)]> σ)
      end
  end.
Proof.
  unfold segmentar_folha, st_bind, ler, st_ret, modificar, anotar.
  destruct (detectar_qrcode_e_calcular_escala _); [|done].
  destruct (maior_contorno _); [|done]. simpl.
  by rewrite lookup_total_insert_eq, insert_insert_eq.
Qed.

Lemma maior_contorno_nil contornos : maior_contorno contornos = None ↔ contornos = [].
Proof. by destruct contornos. Qed.
End Propriedades.

(** C3: for every successful run, the area returned is the pixel area of
    the selected contour multiplied, in [float64], by the scale raised to
    the power 2. *)
Theorem area_cm2_da_folha `{cv : OpenCV} (imagem : loc) (σ : store) (a : float) :
  res_area (segmentar_folha imagem σ).1 = Some a →
  ∃ escala_qr c,
    detectar_qrcode_e_calcular_escala (σ !!! imagem) = Some escala_qr
    ∧ maior_contorno (contornos_da_mascara (mascara_da_folha (σ !!! imagem))) = Some c
    ∧ a = f64_mul (contourArea c) (npy_pow escala_qr 2).
Proof.
  rewrite segmentar_folha_casos.
  destruct (detectar_qrcode_e_calcular_escala _) as [e|]; [|done].
  destruct (maior_contorno _) as [c|]; [|done].
  simpl. intros [= <-]. by exists e, c.
Qed.

(** C4 (as amended): for every successful run, the selected contour is
    drawn as an outline of thickness 2 and the area label is drawn at
    offset (50, 50) on the input array itself, and that same array is what
    the run returns: no copy is made, so the input image holds the
    annotations afterwards, and no other array changes. *)
Theorem anotacao_na_propria_imagem `{cv : OpenCV} (imagem : loc) (σ : store) :
  res_erro (segmentar_folha imagem σ).1 = None →
  ∃ c a,
    maior_contorno (contornos_da_mascara (mascara_da_folha (σ !!! imagem))) = Some c
    ∧ res_area (segmentar_folha imagem σ).1 = Some a
    ∧ res_imagem (segmentar_folha imagem σ).1 = Some imagem
    ∧ (segmentar_folha imagem σ).2 !!! imagem
      = putText (drawContours (σ !!! imagem) [c] (-1) (0, 255, 0) 2)
                ("Área da folha: " +:+ format_2f a +:+ " cm²") (50, 50)
                FONT_HERSHEY_SIMPLEX 1 (255, 0, 0) 2
    ∧ ∀ l, l ≠ imagem → (segmentar_folha imagem σ).2 !! l = σ !! l.
Proof.
  rewrite segmentar_folha_casos.
  destruct (detectar_qrcode_e_calcular_escala _) as [e|]; [|done].
  destruct (maior_contorno _) as [c|]; [|done].
  simpl. intros _. exists c, (area_cm2 (contourArea c) e).
  repeat split.
  - by rewrite lookup_total_insert_eq.
  - intros l Hl. by rewrite lookup_insert_ne.
Qed.

(** C7: every run ends either with the image and the area and no error
    message, or with an error message and neither image nor area, never
    with both and never with neither; in particular, when the detector
    finds no marker the run ends with the message of the missing QR code
    and leaves the store as it was. *)
Theorem resultado_exclusivo `{cv : OpenCV} (imagem : loc) (σ : store) :
  let r := (segmentar_folha imagem σ).1 in
  ((∃ a, r = (Some imagem, Some a, None))
   ∨ (∃ erro, r = (None, None, Some erro) ∧ (segmentar_folha imagem σ).2 = σ))
  ∧ ¬ ((∃ img a, r = (Some img, Some a, None)) ∧ (∃ erro, r = (None, None, Some erro)))
  ∧ ((detectAndDecode (σ !!! imagem)).2 = None
     ∨ (detectAndDecode (σ !!! imagem)).2 = Some [] →
     segmentar_folha imagem σ = ((None, None, Some erro_qr), σ)).
Proof.
  intros r. subst r. rewrite segmentar_folha_casos. split; [|split].
  - destruct (detectar_qrcode_e_calcular_escala _) as [e|]; [|right; by eexists].
    destruct (maior_contorno _) as [c|]; [left; by eexists | right; by eexists].
  - intros [(img & a & H1) (erro & H2)]. rewrite H1 in H2. discriminate.
  - intros H. rewrite detectar_qrcode_e_calcular_escala_eq.
    by destruct H as [-> | ->].
Qed.

(** C9: the area (and the error message) of a run depends on the content of
    the input image alone: two runs on arrays with the same content give
    the same area, bit for bit, whatever else the store holds and whichever
    array object carries the image. *)
Theorem area_determinada_pela_imagem `{cv : OpenCV}
    (imagem1 imagem2 : loc) (σ1 σ2 : store) :
  σ1 !!! imagem1 = σ2 !!! imagem2 →
  res_area (segmentar_folha imagem1 σ1).1 = res_area (segmentar_folha imagem2 σ2).1
  ∧ res_erro (segmentar_folha imagem1 σ1).1 = res_erro (segmentar_folha imagem2 σ2).1.
Proof.
  intros H. rewrite !segmentar_folha_casos, H.
  destruct (detectar_qrcode_e_calcular_escala _) as [e|]; [|done].
  by destruct (maior_contorno _) as [c|].
Qed.

Lemma in_band_green (px : pixel) :
  in_band lower_green upper_green px
  = bool_decide (35 ≤ px.1.1 ≤ 90 ∧ 55 ≤ px.1.2 ≤ 255 ∧ 50 ≤ px.2 ≤ 255).
Proof.
  destruct px as [[h s] v]. unfold in_band, lower_green, upper_green. simpl.
  case_bool_decide as H.
  - destruct H as ((? & ?) & (? & ?) & (? & ?)).
    repeat (apply andb_true_intro; split); by apply Z.leb_le.
  - apply not_true_is_false. intros Hb.
    repeat (apply andb_prop in Hb as [Hb ?%Z.leb_le]). apply Z.leb_le in Hb. lia.
Qed.

Lemma inRange_lookup (src : image) (lowerb upperb : pixel) (i j : nat) :
  inRange src lowerb upperb !! i ≫= (.!! j)
  = (λ px, if in_band lowerb upperb px then 255 else 0) <$> (src !! i ≫= (.!! j)).
Proof.
  unfold inRange. rewrite list_lookup_fmap.
  destruct (src !! i) as [row|]; [|done]. simpl.
  by rewrite list_lookup_fmap.
Qed.

Lemma kernel_offsets_5x5 (di dj : Z) :
  (di, dj) ∈ kernel_offsets kernel ↔ (-2 ≤ di ≤ 2 ∧ -2 ≤ dj ≤ 2).
Proof.
  change (kernel_offsets kernel) with
    [(-2, -2); (-2, -1); (-2, 0); (-2, 1); (-2, 2);
     (-1, -2); (-1, -1); (-1, 0); (-1, 1); (-1, 2);
     (0, -2); (0, -1); (0, 0); (0, 1); (0, 2);
     (1, -2); (1, -1); (1, 0); (1, 1); (1, 2);
     (2, -2); (2, -1); (2, 0); (2, 1); (2, 2)].
  split.
  - intros H. repeat (apply elem_of_cons in H as [[= -> ->] | H]; [lia|]).
    by apply elem_of_nil in H.
  - intros [Hi Hj].
    assert (di = -2 ∨ di = -1 ∨ di = 0 ∨ di = 1 ∨ di = 2) as Hd by lia.
    assert (dj = -2 ∨ dj = -1 ∨ dj = 0 ∨ dj = 1 ∨ dj = 2) as He by lia.
    destruct Hd as [-> | [-> | [-> | [-> | ->]]]];
      destruct He as [-> | [-> | [-> | [-> | ->]]]];
      repeat first [apply list_elem_of_here | apply list_elem_of_further].
Qed.

(** C5: for every input image, a pixel of the thresholded mask is
    foreground (255) exactly when the three components of its HSV pixel lie
    within 35..90, 55..255 and 50..255, bounds included, and background (0)
    otherwise; the mask the contours are searched in is that mask closed
    (dilated, then eroded) and then opened (eroded, then dilated), each
    with the structuring element of 5 by 5 ones, whose neighbourhood is the
    square of offsets -2..2 around the pixel. *)
Theorem mascara_da_folha_spec `{cv : OpenCV} (imagem : image) :
  let hsv := cvtColor imagem COLOR_BGR2HSV in
  let limiar := inRange hsv (35, 55, 50) (90, 255, 255) in
  (∀ i j : nat,
     limiar !! i ≫= (.!! j)
     = (λ px : pixel,
          if bool_decide (35 ≤ px.1.1 ≤ 90 ∧ 55 ≤ px.1.2 ≤ 255 ∧ 50 ≤ px.2 ≤ 255)
          then 255 else 0) <$> (hsv !! i ≫= (.!! j)))
  ∧ mascara_da_folha imagem
    = morphologyEx (morphologyEx limiar MORPH_CLOSE kernel) MORPH_OPEN kernel
  ∧ mascara_da_folha imagem
    = dilate (erode (erode (dilate limiar kernel) kernel) kernel) kernel
  ∧ kernel = [[1; 1; 1; 1; 1]; [1; 1; 1; 1; 1]; [1; 1; 1; 1; 1];
              [1; 1; 1; 1; 1]; [1; 1; 1; 1; 1]]
  ∧ (∀ di dj, (di, dj) ∈ kernel_offsets kernel ↔ (-2 ≤ di ≤ 2 ∧ -2 ≤ dj ≤ 2)).
Proof.
  intros hsv limiar. split; [|split; [|split; [|split]]]; try reflexivity.
  - intros i j. unfold limiar. rewrite inRange_lookup.
    apply option_fmap_ext. intros px.
    change (35, 55, 50) with lower_green. change (90, 255, 255) with upper_green.
    by rewrite in_band_green.
  - apply kernel_offsets_5x5.
Qed.

(** C6: the contours are extracted from the mask with the external
    retrieval mode only; when there is none the run ends with the message
    of the missing leaf; otherwise the contour selected is one of them and
    no contour has an area that compares greater than its area; in
    particular, of two contours with areas A1 < A2 the one of area A2 is
    selected, in whichever order they come. *)
Theorem maior_contorno_spec `{cv : OpenCV} (imagem : loc) (σ : store) (escala_qr : float) :
  detectar_qrcode_e_calcular_escala (σ !!! imagem) = Some escala_qr →
  let contornos :=
    findContours (mascara_da_folha (σ !!! imagem)) RETR_EXTERNAL CHAIN_APPROX_SIMPLE in
  (contornos = [] →
     segmentar_folha imagem σ = ((None, None, Some erro_folha), σ))
  ∧ (contornos ≠ [] →
     ∃ c, maior_contorno contornos = Some c
          ∧ c ∈ contornos
          ∧ (∀ c', c' ∈ contornos → f64_gt (contourArea c') (contourArea c) = false)
          ∧ (segmentar_folha imagem σ).1
            = (Some imagem, Some (area_cm2 (contourArea c) escala_qr), None))
  ∧ (∀ c1 c2, f64_gt (contourArea c2) (contourArea c1) = true →
     contornos = [c1; c2] ∨ contornos = [c2; c1] →
     maior_contorno contornos = Some c2).
Proof.
  intros He contornos. rewrite segmentar_folha_casos, He.
  change (contornos_da_mascara (mascara_da_folha (σ !!! imagem))) with contornos.
  split; [|split].
  - by intros ->.
  - intros Hne. destruct contornos as [| c cs] eqn:E; [done|].
    destruct (py_max_key_greatest contourArea c cs) as [Hin Hall].
    exists (py_max_key contourArea c cs). by repeat split.
  - intros c1 c2 Hgt [-> | ->]; simpl; unfold py_max_key; simpl.
    + by rewrite Hgt.
    + by rewrite (f64_gt_asym _ _ Hgt).
Qed.

(** * More on the scale: numbers only, and symmetries *)

Lemma iter_pos_inv {A} (P : A → Prop) (f : A → A) :
  (∀ x, P x → P (f x)) → ∀ n x, P x → P (SpecFloat.iter_pos f n x).
Proof.
  intros Hf. induction n as [n IH | n IH |]; intros x Hx; simpl; auto.
Qed.

Lemma shr_1_nonneg mrs : 0 ≤ shr_m mrs → 0 ≤ shr_m (shr_1 mrs).
Proof.
  destruct mrs as [m r s]. simpl.
  destruct m as [| [p | p |] | [p | p |]]; simpl; lia.
Qed.

Lemma shr_fexp_nonneg m e l : 0 ≤ m → 0 ≤ shr_m (shr_fexp 53 1024 m e l).1.
Proof.
  intros Hm. unfold shr_fexp, shr.
  assert (H0 : 0 ≤ shr_m (shr_record_of_loc m l)) by (destruct l as [| []]; simpl; lia).
  destruct (fexp 53 1024 (Zdigits2 m + e) - e) as [| p | p]; simpl; try done.
  by apply (iter_pos_inv (λ mrs, 0 ≤ shr_m mrs)); [apply shr_1_nonneg|].
Qed.

(** Rounding a mantissa that is not negative never gives NaN. *)
Lemma binary_round_aux_nao_nan s mx ex lx :
  0 ≤ mx → nao_nan (binary_round_aux 53 1024 s mx ex lx).
Proof.
  intros Hm. unfold binary_round_aux.
  pose proof (shr_fexp_nonneg mx ex lx Hm) as H1.
  destruct (shr_fexp 53 1024 mx ex lx) as [mrs e']. simpl in H1.
  assert (H2 : 0 ≤ round_nearest_even (shr_m mrs) (loc_of_shr_record mrs)).
  { unfold round_nearest_even.
    destruct (loc_of_shr_record mrs) as [| []]; try lia.
    destruct (Z.even (shr_m mrs)); lia. }
  pose proof (shr_fexp_nonneg _ e' loc_Exact H2) as H3.
  destruct (shr_fexp 53 1024 _ e' loc_Exact) as [mrs' e'']. simpl in H3.
  destruct (shr_m mrs') as [| m | m]; simpl; try done; try lia.
  by destruct (e'' <=? 1024 - 53).
Qed.

Lemma f64_of_Z_nao_nan z : nao_nan (f64_of_Z z).
Proof.
  destruct z as [| p | p]; [done | |];
    unfold f64_of_Z; simpl binary_normalize; unfold binary_round;
    destruct (shl_align _ _ _) as [mz ez]; by apply binary_round_aux_nao_nan.
Qed.

Lemma f64_mul_self_nao_nan x : nao_nan x → nao_nan (f64_mul x x).
Proof.
  destruct x as [s | s | | s m e]; simpl; try done.
  intros _. by apply binary_round_aux_nao_nan.
Qed.

Lemma f64_add_nao_nan x y :
  nao_nan x → nao_nan y → sem_sinal x → sem_sinal y → nao_nan (f64_add x y).
Proof.
  destruct x as [sx | sx | | sx mx ex], y as [sy | sy | | sy my ey];
    simpl; intros; subst; try done.
  unfold f64_add, SFadd.
  set (p1 := (shl_align mx _ _).1). set (p2 := (shl_align my _ _).1).
  change (cond_Zopp false (Z.pos p1) + cond_Zopp false (Z.pos p2)) with (Z.pos (p1 + p2)).
  clearbody p1 p2. simpl binary_normalize. unfold binary_round.
  destruct (shl_align _ _ _) as [mz ez].
  by apply binary_round_aux_nao_nan.
Qed.

Lemma SFsqrt_core_binary_nonneg m e : 0 ≤ (SFsqrt_core_binary 53 1024 m e).1.1.
Proof.
  unfold SFsqrt_core_binary.
  match goal with |- context [Z.sqrtrem ?a] =>
    pose proof (Z.sqrtrem_sqrt a) as Hq; pose proof (Z.sqrt_nonneg a) as Hn;
    destruct (Z.sqrtrem a) as [q r] end.
  simpl in *. lia.
Qed.

Lemma f64_sqrt_nao_nan x : nao_nan x → sem_sinal x → nao_nan (f64_sqrt x).
Proof.
  destruct x as [s | s | | s m e]; simpl; intros; subst; try done.
  pose proof (SFsqrt_core_binary_nonneg (Z.pos m) e) as H1.
  destruct (SFsqrt_core_binary _ _ _ _) as [[mz ez] lz].
  by apply binary_round_aux_nao_nan.
Qed.

(** A measured length is a number, and not a negative one. *)
Lemma linalg_norm_nao_nan x : nao_nan (linalg_norm x).
Proof.
  unfold linalg_norm.
  apply f64_sqrt_nao_nan.
  - apply f64_add_nao_nan;
      first [apply f64_mul_self_nao_nan, f64_of_Z_nao_nan | apply f64_mul_self_sem_sinal].
  - apply f64_add_sem_sinal; apply f64_mul_self_sem_sinal.
Qed.

Lemma SFdiv_core_binary_nonneg m1 e1 m2 e2 :
  0 ≤ (SFdiv_core_binary 53 1024 (Z.pos m1) e1 (Z.pos m2) e2).1.1.
Proof.
  unfold SFdiv_core_binary.
  match goal with |- context [Z.div_eucl ?a ?b] =>
    assert (Ha : 0 ≤ a);
    [| pose proof (Z.div_pos a b Ha ltac:(lia)) as Hq; unfold Z.div in Hq;
       destruct (Z.div_eucl a b) as [q r] ] end.
  - match goal with |- context [match ?s with _ => _ end] => destruct s end;
      [lia | apply Z.shiftl_nonneg; lia | lia].
  - simpl in *. lia.
Qed.

Lemma f64_div_tamanho x :
  nao_nan x → sem_sinal x →
  nao_nan (f64_div tamanho_real_cm x) ∧ sem_sinal (f64_div tamanho_real_cm x).
Proof.
  destruct x as [s | s | | s m e]; simpl; intros; subst; try done.
  unfold f64_div, tamanho_real_cm, SFdiv.
  pose proof (SFdiv_core_binary_nonneg 8106479329266893 (-51) m e) as H1.
  destruct (SFdiv_core_binary _ _ _ _ _ _) as [[mz ez] lz].
  split; [by apply binary_round_aux_nao_nan | apply binary_round_aux_sem_sinal].
Qed.

Lemma py_max_cases a b (P : float → Prop) : P a → P b → P (py_max a b).
Proof. unfold py_max. by destruct (f64_gt b a). Qed.

Lemma escala_do_quad_numero t : nao_nan (escala_do_quad t) ∧ sem_sinal (escala_do_quad t).
Proof.
  unfold escala_do_quad, largura_pixels, altura_pixels.
  apply f64_div_tamanho; apply py_max_cases;
    first [apply linalg_norm_nao_nan | apply linalg_norm_sem_sinal].
Qed.

(** X1: whatever corners the detector returns, the scale is a number and is
    not negative: never NaN, never a negative number, negative zero or
    negative infinity. *)
Theorem escala_nunca_nan `{cv : OpenCV} (imagem : image) (escala : float) :
  detectar_qrcode_e_calcular_escala imagem = Some escala →
  nao_nan escala ∧ sem_sinal escala.
Proof.
  rewrite detectar_qrcode_e_calcular_escala_eq.
  destruct (detectAndDecode imagem).2 as [[| v rest] |]; simpl; try done.
  intros [= <-]. apply escala_do_quad_numero.
Qed.

(** Two numbers of clear sign that do not compare greater either way are
    the same float. *)
Lemma f64_gt_total a b :
  nao_nan a → nao_nan b → sem_sinal a → sem_sinal b →
  f64_gt a b = false → f64_gt b a = false → a = b.
Proof.
  unfold f64_gt. intros Ha Hb Sa Sb H1 H2.
  assert (N1 : ¬ lt_rank b a) by (rewrite <- SFltb_rank, H1; done).
  assert (N2 : ¬ lt_rank a b) by (rewrite <- SFltb_rank, H2; done).
  unfold lt_rank, lex_lt in *.
  destruct a as [sa | sa | | sa ma ea], b as [sb | sb | | sb mb eb];
    simpl in *; subst; simpl in *; try done; try lia.
  assert (ea = eb) by lia. assert (ma = mb) by lia. by subst.
Qed.

Lemma py_max_comm a b :
  nao_nan a → nao_nan b → sem_sinal a → sem_sinal b → py_max a b = py_max b a.
Proof.
  intros Ha Hb Sa Sb. unfold py_max.
  destruct (f64_gt b a) eqn:E1, (f64_gt a b) eqn:E2; try done.
  - by rewrite (f64_gt_asym _ _ E1) in E2.
  - by apply f64_gt_total.
Qed.

(** X2: for every corner array, square marker or not, the scale is the
    same when the pair of corners 0 and 1 and the pair of corners 2 and 3
    are exchanged. *)
Theorem escala_troca_de_pares (v : quad float32) (rest rest' : list (quad float32)) :
  escala_dos_vertices (Some (trocar_lados v :: rest'))
  = escala_dos_vertices (Some (v :: rest)).
Proof.
  simpl. f_equal. unfold escala_do_quad.
  change (largura_pixels (quad_astype_int (trocar_lados v)))
    with (altura_pixels (quad_astype_int v)).
  change (altura_pixels (quad_astype_int (trocar_lados v)))
    with (largura_pixels (quad_astype_int v)).
  f_equal. unfold largura_pixels, altura_pixels.
  apply py_max_comm;
    first [apply linalg_norm_nao_nan | apply linalg_norm_sem_sinal].
Qed.

Lemma wrap64_opp z :
  wrap64 (- z) = - wrap64 z ∨ (wrap64 (- z) = int64_min ∧ wrap64 z = int64_min).
Proof.
  unfold wrap64, int64_min.
  pose proof (Z.mod_pos_bound (z + 2 ^ 63) (2 ^ 64) ltac:(lia)) as H1.
  pose proof (Z.mod_pos_bound (- z + 2 ^ 63) (2 ^ 64) ltac:(lia)) as H2.
  pose proof (Z.div_mod (z + 2 ^ 63) (2 ^ 64) ltac:(lia)) as D1.
  pose proof (Z.div_mod (- z + 2 ^ 63) (2 ^ 64) ltac:(lia)) as D2.
  set (r1 := (z + 2 ^ 63) mod 2 ^ 64) in *. set (r2 := (- z + 2 ^ 63) mod 2 ^ 64) in *.
  set (k1 := (z + 2 ^ 63) / 2 ^ 64) in *. set (k2 := (- z + 2 ^ 63) / 2 ^ 64) in *.
  lia.
Qed.

(** The length of a side does not depend on the end it is measured from. *)
Lemma linalg_norm_sub_sym a b : linalg_norm (ponto_sub a b) = linalg_norm (ponto_sub b a).
Proof.
  assert (H : ∀ x y, f64_mul (f64_of_Z (wrap64 (x - y))) (f64_of_Z (wrap64 (x - y)))
                   = f64_mul (f64_of_Z (wrap64 (y - x))) (f64_of_Z (wrap64 (y - x)))).
  { intros x y. replace (y - x) with (- (x - y)) by lia.
    destruct (wrap64_opp (x - y)) as [-> | [-> ->]]; [|done].
    by rewrite f64_of_Z_opp_sq. }
  unfold linalg_norm, ponto_sub. simpl. by rewrite (H a.1 b.1), (H a.2 b.2).
Qed.

(** X3: the scale is the same when the two corners of each measured side
    are given in the other order (corner 1 before corner 0, corner 3 before
    corner 2). *)
Theorem escala_lados_invertidos (v : quad float32) (rest rest' : list (quad float32)) :
  escala_dos_vertices (Some (inverter_lados v :: rest'))
  = escala_dos_vertices (Some (v :: rest)).
Proof.
  simpl. f_equal. unfold escala_do_quad, largura_pixels, altura_pixels. simpl.
  by rewrite (linalg_norm_sub_sym (ponto_map astype_int (q1 v))),
             (linalg_norm_sub_sym (ponto_map astype_int (q3 v))).
Qed.

(** Among integers below [2^53] the order of the floats is the order of
    the integers. *)
Lemma f64_gt_canon a b :
  0 < a < 2 ^ 53 → 0 < b < 2 ^ 53 →
  f64_gt (canon false b) (canon false a) = true ↔ a < b.
Proof.
  intros Ha Hb. unfold f64_gt. rewrite SFltb_rank.
  unfold lt_rank, lex_lt, canon. simpl.
  rewrite !canon_mantissa by done.
  pose proof (log2_bounds a Ha). pose proof (log2_bounds b Hb).
  assert (Hpa : 0 < 2 ^ (52 - Z.log2 a)) by (apply Z.pow_pos_nonneg; lia).
  split.
  - intros [? | [_ [Hl | [Hl Hm]]]]; [lia | |].
    + apply Z.log2_lt_cancel. lia.
    + assert (El : Z.log2 a = Z.log2 b) by lia. rewrite <- El in Hm.
      by apply Z.mul_lt_mono_pos_r in Hm.
  - intros Hab. right. split; [done|].
    pose proof (Z.log2_le_mono a b ltac:(lia)) as Hle.
    destruct (Z.eq_dec (Z.log2 a) (Z.log2 b)) as [El | Hne]; [right | left; lia].
    split; [lia|]. rewrite <- El. by apply Z.mul_lt_mono_pos_r.
Qed.

Lemma py_max_of_Z a b :
  0 ≤ a < 2 ^ 53 → 0 ≤ b < 2 ^ 53 →
  py_max (f64_of_Z a) (f64_of_Z b) = f64_of_Z (Z.max a b).
Proof.
  intros Ha Hb. unfold py_max.
  destruct (Z.eq_dec a 0) as [-> | Ha0]; [| destruct (Z.eq_dec b 0) as [-> | Hb0]].
  - rewrite Z.max_r by lia. destruct (Z.eq_dec b 0) as [-> | Hb0]; [done|].
    rewrite (f64_of_Z_pos b) by lia. reflexivity.
  - rewrite Z.max_l by lia. rewrite (f64_of_Z_pos a) by lia. reflexivity.
  - rewrite (f64_of_Z_pos a), (f64_of_Z_pos b) by lia.
    destruct (f64_gt (canon false b) (canon false a)) eqn:E.
    + apply f64_gt_canon in E; [|lia..]. rewrite Z.max_r by lia. by rewrite f64_of_Z_pos by lia.
    + assert (¬ a < b) by (rewrite <- f64_gt_canon, E by lia; done).
      rewrite Z.max_l by lia. by rewrite f64_of_Z_pos by lia.
Qed.

(** X4: when the two measured sides of the truncated corners have whole
    lengths [S1] and [S2] (squares below [2^53]), in any orientation, the
    scale is exactly the quotient of 3.6 by the longer of the two. *)
Theorem escala_lados_inteiros (v : quad float32) (rest : list (quad float32)) (S1 S2 : Z) :
  0 ≤ S1 → 0 ≤ S2 → S1 * S1 < 2 ^ 53 → S2 * S2 < 2 ^ 53 →
  dist2 (q0 (quad_astype_int v)) (q1 (quad_astype_int v)) = S1 * S1 →
  dist2 (q2 (quad_astype_int v)) (q3 (quad_astype_int v)) = S2 * S2 →
  escala_dos_vertices (Some (v :: rest))
  = Some (f64_div tamanho_real_cm (f64_of_Z (Z.max S1 S2))).
Proof.
  intros H1 H2 B1 B2 D1 D2. simpl. f_equal.
  rewrite escala_do_quad_exact by lia.
  rewrite (distancia_lado _ _ S1), (distancia_lado _ _ S2) by done.
  rewrite py_max_of_Z; [done | nia..].
Qed.

(** * The mask *)

Lemma mask_at_Some (m : mask) i j x :
  mask_at m i j = Some x ↔
  0 ≤ i ∧ 0 ≤ j ∧ ∃ row, m !! Z.to_nat i = Some row ∧ row !! Z.to_nat j = Some x.
Proof.
  unfold mask_at. destruct (Z.ltb_spec i 0), (Z.ltb_spec j 0); simpl;
    try (split; [done | intros (? & ? & _); lia]).
  destruct (m !! Z.to_nat i) as [row|]; simpl.
  - split; [intros H'; repeat split; try lia; by exists row|].
    by intros (_ & _ & row' & [= <-] & ?).
  - split; [done|]. by intros (_ & _ & row' & ? & _).
Qed.

Lemma Forall_mask_at (P : Z → Prop) (m : mask) :
  Forall (Forall P) m ↔ ∀ i j x, mask_at m i j = Some x → P x.
Proof.
  split.
  - intros H i j x (_ & _ & row & Hr & Hx)%mask_at_Some.
    eapply Forall_lookup_1; [|exact Hx]. eapply Forall_lookup_1; [exact H | exact Hr].
  - intros H. apply Forall_lookup_2. intros a row Hr.
    apply Forall_lookup_2. intros b x Hx.
    apply (H (Z.of_nat a) (Z.of_nat b)). apply mask_at_Some.
    rewrite !Nat2Z.id. repeat split; try lia. by exists row.
Qed.

Lemma mask_at_imap (g : Z → Z → Z) (m : mask) i j :
  mask_at (imap (λ a row, imap (λ b _, g (Z.of_nat a) (Z.of_nat b)) row) m) i j
  = (λ _, g i j) <$> mask_at m i j.
Proof.
  unfold mask_at. destruct (Z.ltb_spec i 0), (Z.ltb_spec j 0); simpl; try done.
  rewrite list_lookup_imap. destruct (m !! Z.to_nat i) as [row|]; simpl; [|done].
  rewrite list_lookup_imap. destruct (row !! Z.to_nat j); simpl; [|done].
  by rewrite !Z2Nat.id by lia.
Qed.

Lemma mask_at_dilate m k i j :
  mask_at (dilate m k) i j = (λ _, foldr Z.max 0 (neighbourhood k m i j)) <$> mask_at m i j.
Proof. apply (mask_at_imap (λ i j, foldr Z.max 0 (neighbourhood k m i j))). Qed.

Lemma mask_at_erode m k i j :
  mask_at (erode m k) i j = (λ _, foldr Z.min 255 (neighbourhood k m i j)) <$> mask_at m i j.
Proof. apply (mask_at_imap (λ i j, foldr Z.min 255 (neighbourhood k m i j))). Qed.

Lemma forma_imap {A B} (g : nat → nat → A → B) (m : list (list A)) :
  forma (imap (λ a row, imap (g a) row) m) = forma m.
Proof.
  unfold forma. apply list_eq. intros a.
  rewrite !list_lookup_fmap, list_lookup_imap.
  destruct (m !! a); simpl; [|done]. by rewrite length_imap.
Qed.

Lemma forma_dilate m k : forma (dilate m k) = forma m.
Proof. apply (forma_imap (λ a b _, foldr Z.max 0 (neighbourhood k m (Z.of_nat a) (Z.of_nat b)))). Qed.

Lemma forma_erode m k : forma (erode m k) = forma m.
Proof. apply (forma_imap (λ a b _, foldr Z.min 255 (neighbourhood k m (Z.of_nat a) (Z.of_nat b)))). Qed.

Lemma forma_inRange src lowerb upperb : forma (inRange src lowerb upperb) = forma src.
Proof.
  unfold forma, inRange. rewrite <- list_fmap_compose.
  apply list_fmap_ext. intros _ row _. simpl. by rewrite length_fmap.
Qed.

(** X5: the mask has the rows and columns of the converted image: neither
    the threshold nor the closing and the opening change the size. *)
Theorem mascara_da_folha_forma `{cv : OpenCV} (imagem : image) :
  forma (mascara_da_folha imagem) = forma (cvtColor imagem COLOR_BGR2HSV).
Proof.
  unfold mascara_da_folha, morphologyEx.
  by rewrite forma_dilate, forma_erode, forma_erode, forma_dilate, forma_inRange.
Qed.

(** The elements under the structuring element are elements of the mask. *)
Lemma elem_of_neighbourhood k (m : mask) i j y :
  y ∈ neighbourhood k m i j ↔
  ∃ d, d ∈ kernel_offsets k ∧ mask_at m (i + d.1) (j + d.2) = Some y.
Proof. unfold neighbourhood. apply list_elem_of_omap. Qed.

Lemma neighbourhood_Forall (P : Z → Prop) k (m : mask) i j :
  Forall (Forall P) m → Forall P (neighbourhood k m i j).
Proof.
  rewrite Forall_mask_at. intros H. apply Forall_forall. intros y Hy.
  apply elem_of_neighbourhood in Hy as (d & _ & Hd). by eapply H.
Qed.

(** The pixel itself is under the 5 by 5 structuring element. *)
Lemma neighbourhood_centre (m : mask) i j x :
  mask_at m i j = Some x → x ∈ neighbourhood kernel m i j.
Proof.
  intros H. apply elem_of_neighbourhood. exists (0, 0). split.
  - apply kernel_offsets_5x5. lia.
  - simpl. by rewrite !Z.add_0_r.
Qed.

Lemma foldr_max_elem (l : list Z) x : x ∈ l → x ≤ foldr Z.max 0 l.
Proof.
  induction l as [| y l IH]; [by intros ?%elem_of_nil|].
  intros [-> | H]%elem_of_cons; simpl; [lia|]. specialize (IH H). lia.
Qed.

Lemma foldr_min_elem (l : list Z) x : x ∈ l → foldr Z.min 255 l ≤ x.
Proof.
  induction l as [| y l IH]; [by intros ?%elem_of_nil|].
  intros [-> | H]%elem_of_cons; simpl; [lia|]. specialize (IH H). lia.
Qed.

Lemma foldr_max_le (l : list Z) x : 0 ≤ x → Forall (λ y, y ≤ x) l → foldr Z.max 0 l ≤ x.
Proof. intros Hx. induction 1; simpl; lia. Qed.

Lemma foldr_min_ge (l : list Z) x : x ≤ 255 → Forall (λ y, x ≤ y) l → x ≤ foldr Z.min 255 l.
Proof. intros Hx. induction 1; simpl; lia. Qed.

Lemma foldr_max_binario (l : list Z) :
  Forall (λ x, x = 0 ∨ x = 255) l → foldr Z.max 0 l = 0 ∨ foldr Z.max 0 l = 255.
Proof. induction 1; simpl; lia. Qed.

Lemma foldr_min_binario (l : list Z) :
  Forall (λ x, x = 0 ∨ x = 255) l → foldr Z.min 255 l = 0 ∨ foldr Z.min 255 l = 255.
Proof. induction 1; simpl; lia. Qed.

Lemma dilate_binaria m k :
  Forall (Forall (λ x, x = 0 ∨ x = 255)) m → Forall (Forall (λ x, x = 0 ∨ x = 255)) (dilate m k).
Proof.
  intros H. apply Forall_mask_at. intros i j x. rewrite mask_at_dilate.
  destruct (mask_at m i j); [|done]. intros [= <-].
  by apply foldr_max_binario, neighbourhood_Forall.
Qed.

Lemma erode_binaria m k :
  Forall (Forall (λ x, x = 0 ∨ x = 255)) m → Forall (Forall (λ x, x = 0 ∨ x = 255)) (erode m k).
Proof.
  intros H. apply Forall_mask_at. intros i j x. rewrite mask_at_erode.
  destruct (mask_at m i j); [|done]. intros [= <-].
  by apply foldr_min_binario, neighbourhood_Forall.
Qed.

Lemma inRange_binaria src lowerb upperb :
  Forall (Forall (λ x, x = 0 ∨ x = 255)) (inRange src lowerb upperb).
Proof.
  unfold inRange. apply Forall_fmap, Forall_true. intros row.
  apply Forall_fmap, Forall_true. intros px. simpl.
  destruct (in_band lowerb upperb px); auto.
Qed.

(** X6: every element of the mask handed to the contour search is 0 or
    255. *)
Theorem mascara_da_folha_binaria `{cv : OpenCV} (imagem : image) :
  Forall (Forall (λ x, x = 0 ∨ x = 255)) (mascara_da_folha imagem).
Proof.
  unfold mascara_da_folha, morphologyEx.
  apply dilate_binaria, erode_binaria, erode_binaria, dilate_binaria, inRange_binaria.
Qed.

(** A mask whose elements all have the value [c] keeps it under a dilation
    and under an erosion by the 5 by 5 element: the positions outside the
    mask do not take part. *)
Lemma dilate_constante c m :
  0 ≤ c → Forall (Forall (λ x, x = c)) m → Forall (Forall (λ x, x = c)) (dilate m kernel).
Proof.
  intros Hc H. apply Forall_mask_at. intros i j x. rewrite mask_at_dilate.
  destruct (mask_at m i j) as [y|] eqn:E; [|done]. intros [= <-].
  pose proof (proj1 (Forall_mask_at _ _) H _ _ _ E) as Hy. simpl in Hy. subst y.
  apply Z.le_antisymm.
  - apply foldr_max_le; [done|].
    eapply Forall_impl; [by apply neighbourhood_Forall|]. simpl. lia.
  - by apply foldr_max_elem, neighbourhood_centre.
Qed.

Lemma erode_constante c m :
  c ≤ 255 → Forall (Forall (λ x, x = c)) m → Forall (Forall (λ x, x = c)) (erode m kernel).
Proof.
  intros Hc H. apply Forall_mask_at. intros i j x. rewrite mask_at_erode.
  destruct (mask_at m i j) as [y|] eqn:E; [|done]. intros [= <-].
  pose proof (proj1 (Forall_mask_at _ _) H _ _ _ E) as Hy. simpl in Hy. subst y.
  apply Z.le_antisymm.
  - by apply foldr_min_elem, neighbourhood_centre.
  - apply foldr_min_ge; [done|].
    eapply Forall_impl; [by apply neighbourhood_Forall|]. simpl. lia.
Qed.

Lemma mascara_constante `{cv : OpenCV} (imagem : image) (b : bool) :
  Forall (Forall (λ px, in_band lower_green upper_green px = b))
         (cvtColor imagem COLOR_BGR2HSV) →
  Forall (Forall (λ x, x = if b then 255 else 0)) (mascara_da_folha imagem).
Proof.
  intros H. unfold mascara_da_folha, morphologyEx.
  assert (Hc : 0 ≤ (if b then 255 else 0) ≤ 255) by (destruct b; lia).
  apply dilate_constante, erode_constante, erode_constante, dilate_constante; try lia.
  unfold inRange. apply Forall_fmap. eapply Forall_impl; [exact H|].
  intros row Hrow. apply Forall_fmap. eapply Forall_impl; [exact Hrow|].
  intros px Hpx. unfold compose. cbv beta in *. by rewrite Hpx.
Qed.

(** X7: when no pixel of the converted image lies in the colour band, the
    whole mask is background. *)
Theorem mascara_sem_verde `{cv : OpenCV} (imagem : image) :
  Forall (Forall (λ px, in_band lower_green upper_green px = false))
         (cvtColor imagem COLOR_BGR2HSV) →
  Forall (Forall (λ x, x = 0)) (mascara_da_folha imagem).
Proof. apply (mascara_constante imagem false). Qed.

(** X8: when every pixel of the converted image lies in the colour band,
    the whole mask is foreground, up to and including its border: the
    erosions take nothing away at the edge of the image. *)
Theorem mascara_toda_verde `{cv : OpenCV} (imagem : image) :
  Forall (Forall (λ px, in_band lower_green upper_green px = true))
         (cvtColor imagem COLOR_BGR2HSV) →
  Forall (Forall (λ x, x = 255)) (mascara_da_folha imagem).
Proof. apply (mascara_constante imagem true). Qed.

Lemma kernel_offsets_opp d : d ∈ kernel_offsets kernel → (- d.1, - d.2) ∈ kernel_offsets kernel.
Proof. destruct d as [di dj]. rewrite !kernel_offsets_5x5. simpl. lia. Qed.

(** Under the structuring element placed on a neighbour, the pixel itself
    is found again. *)
Lemma neighbourhood_back (m : mask) i j x d :
  d ∈ kernel_offsets kernel → mask_at m i j = Some x →
  x ∈ neighbourhood kernel m (i + d.1) (j + d.2).
Proof.
  intros Hd Hx. apply elem_of_neighbourhood. exists (- d.1, - d.2).
  split; [by apply kernel_offsets_opp|]. simpl.
  by replace (i + d.1 + - d.1) with i by lia; replace (j + d.2 + - d.2) with j by lia.
Qed.

(** A closing does not lower any element, an opening does not raise any. *)
Lemma closing_extensive (m : mask) i j x :
  Forall (Forall (λ y, y ≤ 255)) m → mask_at m i j = Some x →
  ∃ y, mask_at (erode (dilate m kernel) kernel) i j = Some y ∧ x ≤ y.
Proof.
  intros Hm Hx. rewrite mask_at_erode, mask_at_dilate, Hx. simpl.
  eexists. split; [reflexivity|].
  apply foldr_min_ge; [by apply (proj1 (Forall_mask_at _ _) Hm _ _ _ Hx)|].
  apply Forall_forall. intros y (d & Hd & Hy)%elem_of_neighbourhood.
  rewrite mask_at_dilate in Hy.
  destruct (mask_at m (i + d.1) (j + d.2)); simpl in Hy; [|done].
  injection Hy as <-. by apply foldr_max_elem, neighbourhood_back.
Qed.

Lemma opening_anti_extensive (m : mask) i j y :
  Forall (Forall (λ x, 0 ≤ x)) m → mask_at (dilate (erode m kernel) kernel) i j = Some y →
  ∃ x, mask_at m i j = Some x ∧ y ≤ x.
Proof.
  intros Hm. rewrite mask_at_dilate, mask_at_erode.
  destruct (mask_at m i j) as [x|] eqn:Hx; simpl; [|done].
  intros [= <-]. exists x. split; [done|].
  apply foldr_max_le; [by apply (proj1 (Forall_mask_at _ _) Hm _ _ _ Hx)|].
  apply Forall_forall. intros z (d & Hd & Hz)%elem_of_neighbourhood.
  rewrite mask_at_erode in Hz.
  destruct (mask_at m (i + d.1) (j + d.2)); simpl in Hz; [|done].
  injection Hz as <-. by apply foldr_min_elem, neighbourhood_back.
Qed.

Lemma mascara_fechada_binaria `{cv : OpenCV} (imagem : image) :
  Forall (Forall (λ x, x = 0 ∨ x = 255)) (mascara_fechada imagem).
Proof.
  unfold mascara_fechada, morphologyEx.
  apply erode_binaria, dilate_binaria, inRange_binaria.
Qed.

(** X9: the closing removes no foreground: a pixel whose HSV components
    lie in the band is foreground in the mask after the closing. *)
Theorem fechamento_nao_remove `{cv : OpenCV} (imagem : image) (i j : Z) :
  mask_at (inRange (cvtColor imagem COLOR_BGR2HSV) lower_green upper_green) i j = Some 255 →
  mask_at (mascara_fechada imagem) i j = Some 255.
Proof.
  intros H. unfold mascara_fechada, morphologyEx.
  assert (Hm : Forall (Forall (λ y, y ≤ 255))
                 (inRange (cvtColor imagem COLOR_BGR2HSV) lower_green upper_green)).
  { eapply Forall_impl; [apply inRange_binaria|]. intros row Hrow.
    eapply Forall_impl; [exact Hrow|]. simpl. lia. }
  destruct (closing_extensive _ i j 255 Hm H) as (y & Hy & Hle).
  pose proof (proj1 (Forall_mask_at _ _) (mascara_fechada_binaria imagem) _ _ _ Hy) as Hb.
  simpl in Hb. rewrite Hy. f_equal. lia.
Qed.

(** X10: the opening adds no foreground: every foreground pixel of the
    mask handed to the contour search was foreground after the closing. *)
Theorem abertura_nao_acrescenta `{cv : OpenCV} (imagem : image) (i j : Z) :
  mask_at (mascara_da_folha imagem) i j = Some 255 →
  mask_at (mascara_fechada imagem) i j = Some 255.
Proof.
  intros H.
  change (mascara_da_folha imagem)
    with (dilate (erode (mascara_fechada imagem) kernel) kernel) in H.
  apply opening_anti_extensive in H as (x & Hx & Hle).
  - pose proof (proj1 (Forall_mask_at _ _) (mascara_fechada_binaria imagem) _ _ _ Hx) as Hb.
    simpl in Hb. rewrite Hx. f_equal. lia.
  - eapply Forall_impl; [apply mascara_fechada_binaria|]. intros row Hrow.
    eapply Forall_impl; [exact Hrow|]. simpl. lia.
Qed.

(** * Ties in [max(..., key=...)] *)

Lemma rank_nao_nan f : nao_nan f → is_Some (rank f).
Proof. destruct f as [[] | [] | | [] ? ?]; simpl; try done; by eexists. Qed.

Lemma f64_gt_le_trans r x i :
  nao_nan i → f64_gt i x = false → f64_gt r x = true → f64_gt r i = true.
Proof.
  unfold f64_gt. intros [ti Hi]%rank_nao_nan Hix Hrx.
  assert (N : ¬ lt_rank x i) by (rewrite <- SFltb_rank, Hix; done).
  apply SFltb_rank in Hrx. apply SFltb_rank.
  unfold lt_rank, lex_lt in *. rewrite Hi in *.
  destruct (rank r) as [[[? ?] ?]|], (rank x) as [[[? ?] ?]|], ti as [[? ?] ?];
    simpl in *; try done. lia.
Qed.

Section Empate.
Context {A : Type} (key : A → float).

(** When no key is NaN, the item returned is the first of the items with
    the greatest key: its key compares greater than the key of every item
    before it, and no later item has a key that compares greater. *)
Lemma py_max_key_primeiro items : ∀ x,
  (∀ y, y ∈ x :: items → nao_nan (key y)) →
  ∃ l1 l2, x :: items = l1 ++ py_max_key key x items :: l2
    ∧ (∀ y, y ∈ l1 → f64_gt (key (py_max_key key x items)) (key y) = true)
    ∧ (∀ y, y ∈ l2 → f64_gt (key y) (key (py_max_key key x items)) = false).
Proof.
  induction items as [| i items IH]; intros x Hn.
  - exists [], []. repeat split; intros y Hy; by apply elem_of_nil in Hy.
  - change (py_max_key key x (i :: items))
      with (py_max_key key (if f64_gt (key i) (key x) then i else x) items).
    destruct (f64_gt (key i) (key x)) eqn:E.
    + destruct (IH i) as (l1 & l2 & Heq & H1 & H2).
      { intros y Hy. apply Hn. by apply list_elem_of_further. }
      exists (x :: l1), l2. split; [by rewrite Heq|]. split; [|done].
      intros y [-> | Hy]%elem_of_cons; [|by apply H1].
      destruct (py_max_key_spec key items i) as (_ & [Hd | Hd] & _).
      * by rewrite Hd.
      * by eapply f64_gt_trans.
    + destruct (IH x) as (l1 & l2 & Heq & H1 & H2).
      { intros y Hy. apply Hn.
        apply elem_of_cons in Hy as [-> | Hy]; [apply list_elem_of_here|].
        by do 2 apply list_elem_of_further. }
      destruct l1 as [| z l1]; simpl in Heq.
      * injection Heq as Hx Hit. exists [], (i :: l2). split; [simpl; by rewrite Hit, Hx at 1|].
        split; [intros y Hy; by apply elem_of_nil in Hy|].
        intros y [-> | Hy]%elem_of_cons; [by rewrite <- Hx | by apply H2].
      * injection Heq as <- Hit. exists (x :: i :: l1), l2.
        split; [simpl; do 2 f_equal; exact Hit|]. split; [|done].
        intros y [-> | [-> | Hy]%elem_of_cons]%elem_of_cons.
        -- apply H1, list_elem_of_here.
        -- eapply f64_gt_le_trans; [| exact E | apply H1, list_elem_of_here].
           apply Hn, list_elem_of_further, list_elem_of_here.
        -- by apply H1, list_elem_of_further.
Qed.
End Empate.

(** X11: when no contour area is NaN, the contour selected is the first of
    the contours of greatest area: every contour before it in the list has
    an area that compares smaller, and no contour after it has an area that
    compares greater.  Of several contours of the same greatest area the
    one found first is kept. *)
Theorem maior_contorno_primeiro `{cv : OpenCV} (contornos : list contorno) (c : contorno) :
  (∀ y, y ∈ contornos → nao_nan (contourArea y)) →
  maior_contorno contornos = Some c →
  ∃ l1 l2, contornos = l1 ++ c :: l2
    ∧ (∀ y, y ∈ l1 → f64_gt (contourArea c) (contourArea y) = true)
    ∧ (∀ y, y ∈ l2 → f64_gt (contourArea y) (contourArea c) = false).
Proof.
  intros Hn. destruct contornos as [| x items]; [done|].
  simpl. intros [= <-]. by apply py_max_key_primeiro.
Qed.

(** * The request handler *)

Section Servidor.
Context `{cv : OpenCV} `{cd : Codecs}.

(** The five ways [processar] ends. *)
Lemma processar_casos (request : pedido) (σ : store) :
  processar request σ =
  match files request !! "imagem" with
  | None => (Resposta {[ "erro" := VStr erro_sem_imagem ]} 400, σ)
  | Some imagem_bytes =>
      match imdecode (np_frombuffer imagem_bytes) IMREAD_COLOR with
      | None => (Resposta {[ "erro" := VStr erro_decodificar ]} 400, σ)
      | Some img =>
          let l := fresh (dom σ) in
          match detectar_qrcode_e_calcular_escala img with
          | None => (Resposta {[ "erro" := VStr erro_qr ]} 500, <[l := img]> σ)
          | Some escala_qr =>
              match maior_contorno (contornos_da_mascara (mascara_da_folha img)) with
              | None => (Resposta {[ "erro" := VStr erro_folha ]} 500, <[l := img]> σ)
              | Some c =>
                  let area := area_cm2 (contourArea c) escala_qr in
                  (Resposta
                     {[ "imagem_processada" :=
                          VStr (b64encode (imencode ".png" (anotar c area img)).2);
                        "area_foliar" := VNum area ]} 200,
                   <[l := anotar c area img]> σ)
              end
          end
      end
  end.
Proof.
  unfold processar.
  destruct (files request !! "imagem") as [bs|]; [|done].
  destruct (imdecode (np_frombuffer bs) IMREAD_COLOR) as [img|]; [|done].
  unfold st_bind at 1, alocar. unfold st_bind at 1.
  rewrite segmentar_folha_casos, lookup_total_insert_eq.
  destruct (detectar_qrcode_e_calcular_escala img) as [e|]; [|done].
  destruct (maior_contorno _) as [c|]; [|done].
  cbv zeta. unfold py_bool, st_bind, ler, st_ret.
  by rewrite lookup_total_insert_eq, insert_insert_eq.
Qed.
End Servidor.


(** X13: a response of status 200 is given only when the file was sent,
    decoded, the marker was found and a contour was found; it then carries
    the encoding of the image as annotated in place (outline, then label)
    and the area of the selected contour times the scale to the power 2. *)
Theorem processar_200 `{cv : OpenCV} `{cd : Codecs}
    (request : pedido) (σ : store) (corpo : gmap string valor) :
  (processar request σ).1 = Resposta corpo 200 →
  ∃ bs img escala_qr c,
    files request !! "imagem" = Some bs
    ∧ imdecode bs IMREAD_COLOR = Some img
    ∧ detectar_qrcode_e_calcular_escala img = Some escala_qr
    ∧ maior_contorno (findContours (mascara_da_folha img) RETR_EXTERNAL CHAIN_APPROX_SIMPLE)
      = Some c
    ∧ corpo !! "area_foliar" = Some (VNum (f64_mul (contourArea c) (npy_pow escala_qr 2)))
    ∧ corpo !! "imagem_processada"
      = Some (VStr (b64encode (imencode ".png"
          (putText (drawContours img [c] (-1) (0, 255, 0) 2)
             (texto (f64_mul (contourArea c) (npy_pow escala_qr 2)))
             (50, 50) FONT_HERSHEY_SIMPLEX 1 (255, 0, 0) 2)).2)).
Proof.
  rewrite processar_casos.
  destruct (files request !! "imagem") as [bs|]; [|done].
  destruct (imdecode _ _) as [img|] eqn:Ed; [|done].
  destruct (detectar_qrcode_e_calcular_escala img) as [e|] eqn:Ee; [|done].
  destruct (maior_contorno _) as [c|] eqn:Ec; [|done].
  simpl. intros [= <-]. exists bs, img, e, c. by repeat split.
Qed.

(** X14: a response of status 400 means that no file came under the field
    name "imagem" or that its bytes are no image; nothing has been stored
    then, and the message tells which of the two it was. *)
Theorem processar_400 `{cv : OpenCV} `{cd : Codecs}
    (request : pedido) (σ : store) (corpo : gmap string valor) :
  (processar request σ).1 = Resposta corpo 400 →
  (processar request σ).2 = σ
  ∧ ((files request !! "imagem" = None ∧ corpo = {[ "erro" := VStr erro_sem_imagem ]})
     ∨ (∃ bs, files request !! "imagem" = Some bs
              ∧ imdecode bs IMREAD_COLOR = None
              ∧ corpo = {[ "erro" := VStr erro_decodificar ]})).
Proof.
  rewrite processar_casos.
  destruct (files request !! "imagem") as [bs|]; [|intros [= <-]; auto].
  destruct (imdecode _ _) as [img|] eqn:Ed; [|intros [= <-]; split; [done|]; right; by exists bs].
  destruct (detectar_qrcode_e_calcular_escala img) as [e|]; [|done].
  by destruct (maior_contorno _) as [c|].
Qed.

(** X15: a response of status 500 means that the image was decoded and the
    pipeline failed: the marker was not found, or it was found and the mask
    has no contour; the message is the pipeline's own, and the decoded
    image has been stored without any annotation. *)
Theorem processar_500 `{cv : OpenCV} `{cd : Codecs}
    (request : pedido) (σ : store) (corpo : gmap string valor) :
  (processar request σ).1 = Resposta corpo 500 →
  ∃ bs img,
    files request !! "imagem" = Some bs
    ∧ imdecode bs IMREAD_COLOR = Some img
    ∧ (processar request σ).2 = <[fresh (dom σ) := img]> σ
    ∧ ((detectar_qrcode_e_calcular_escala img = None
        ∧ corpo = {[ "erro" := VStr erro_qr ]})
       ∨ (is_Some (detectar_qrcode_e_calcular_escala img)
          ∧ findContours (mascara_da_folha img) RETR_EXTERNAL CHAIN_APPROX_SIMPLE = []
          ∧ corpo = {[ "erro" := VStr erro_folha ]})).
Proof.
  rewrite processar_casos.
  destruct (files request !! "imagem") as [bs|]; [|done].
  destruct (imdecode _ _) as [img|] eqn:Ed; [|done].
  destruct (detectar_qrcode_e_calcular_escala img) as [e|] eqn:Ee.
  - destruct (maior_contorno _) as [c|] eqn:Ec; [done|].
    apply maior_contorno_nil in Ec. intros [= <-]. exists bs, img.
    repeat split; try done. right. by repeat split.
  - intros [= <-]. exists bs, img. repeat split; try done. by left.
Qed.

(** X16: a request shares nothing with what was stored before it: its
    response is the same whatever the store holds, the array it works on
    is a new one, and every array that existed keeps its content. *)
Theorem processar_isolado `{cv : OpenCV} `{cd : Codecs}
    (request : pedido) (σ σ' : store) :
  (processar request σ).1 = (processar request σ').1
  ∧ (∀ l, l ∈ dom σ → (processar request σ).2 !! l = σ !! l)
  ∧ dom (processar request σ).2 ⊆ dom σ ∪ {[ fresh (dom σ) ]}.
Proof.
  rewrite !processar_casos.
  assert (Hf : ∀ l img, l ∈ dom σ → <[fresh (dom σ) := img]> σ !! l = σ !! l).
  { intros l img Hl. apply lookup_insert_ne. intros <-. by apply (is_fresh (dom σ)). }
  assert (Hd : ∀ img : image, dom (<[fresh (dom σ) := img]> σ) ⊆ dom σ ∪ {[fresh (dom σ)]}).
  { intros img. rewrite dom_insert_L. apply union_least;
      [apply union_subseteq_r | apply union_subseteq_l]. }
  assert (H0 : dom σ ⊆ dom σ ∪ {[fresh (dom σ)]}) by apply union_subseteq_l.
  destruct (files request !! "imagem") as [bs|]; [|done].
  destruct (imdecode _ _) as [img|]; [|done].
  destruct (detectar_qrcode_e_calcular_escala img) as [e|];
    [|cbv zeta; simpl; split; [done|]; split; [intros; apply Hf | apply Hd]; done].
  destruct (maior_contorno _) as [c|];
    cbv zeta; simpl; (split; [done|]; split; [intros; apply Hf | apply Hd]; done).
Qed.

(** X17: the outcome of a run tells which stage stopped it: there is no
    error exactly when the marker was found and the mask has a contour; the
    message of the missing QR code is returned exactly when the detector
    found no marker; the message of the missing leaf exactly when the
    marker was found and the mask has no contour. *)
Theorem segmentar_folha_erros `{cv : OpenCV} (imagem : loc) (σ : store) :
  (res_erro (segmentar_folha imagem σ).1 = None
   ↔ is_Some (detectar_qrcode_e_calcular_escala (σ !!! imagem))
     ∧ findContours (mascara_da_folha (σ !!! imagem)) RETR_EXTERNAL CHAIN_APPROX_SIMPLE ≠ [])
  ∧ (res_erro (segmentar_folha imagem σ).1 = Some erro_qr
     ↔ detectar_qrcode_e_calcular_escala (σ !!! imagem) = None)
  ∧ (res_erro (segmentar_folha imagem σ).1 = Some erro_folha
     ↔ is_Some (detectar_qrcode_e_calcular_escala (σ !!! imagem))
       ∧ findContours (mascara_da_folha (σ !!! imagem)) RETR_EXTERNAL CHAIN_APPROX_SIMPLE = []).
Proof.
  rewrite segmentar_folha_casos.
  change (contornos_da_mascara (mascara_da_folha (σ !!! imagem)))
    with (findContours (mascara_da_folha (σ !!! imagem)) RETR_EXTERNAL CHAIN_APPROX_SIMPLE).
  destruct (detectar_qrcode_e_calcular_escala _) as [e|].
  - destruct (findContours _ _ _) as [| c cs]; simpl; unfold res_erro; simpl.
    + repeat split; try done; try (by intros [_ ?]); by eexists.
    + repeat split; try done; try (by intros [_ ?]); by eexists.
  - unfold res_erro; simpl. repeat split; try done; try (by intros [[? ?] _]).
Qed.
(** * Runs on the sample arrays *)

#[local] Existing Instance Amostra.cv.

(** Four coincident corners: both lengths are zero and the scale returned
    is the infinity, not a rejection. *)
Lemma escala_cantos_coincidentes :
  f64_eqb (largura_pixels (quad_astype_int quad_coincidente)) pos_zero = true
  ∧ f64_eqb (altura_pixels (quad_astype_int quad_coincidente)) pos_zero = true
  ∧ escala_dos_vertices (Some [quad_coincidente]) = Some pos_inf
  ∧ escala_dos_vertices (Some [quad_coincidente]) ≠ None.
Proof. vm_compute. repeat split; discriminate. Qed.

Lemma escala_degenerada_infinita_witness :
  detectar_qrcode_e_calcular_escala (cv := Amostra.cv) imagem_ponto = Some pos_inf.
Proof.
  apply (escala_degenerada_infinita (cv := Amostra.cv) imagem_ponto quad_coincidente []);
    vm_compute; reflexivity.
Defined.

(** A square of 100.5 pixels per side whose corners lie between pixels: the
    code divides by 100, the distance of the truncated corners, and not by
    the side of the square. *)
Lemma escala_cantos_subpixel :
  escala_dos_vertices (Some [quad_subpixel]) = Some (f64_div tamanho_real_cm (f64_of_Z 100))
  ∧ distancia_cantos (q0 quad_subpixel) (q1 quad_subpixel) = f64_of_f32 (f32_of_dyadic 201 (-1))
  ∧ distancia_cantos (q2 quad_subpixel) (q3 quad_subpixel) = f64_of_f32 (f32_of_dyadic 201 (-1))
  ∧ escala_spec quad_subpixel = f64_div tamanho_real_cm (f64_of_f32 (f32_of_dyadic 201 (-1)))
  ∧ escala_dos_vertices (Some [quad_subpixel]) ≠ Some (escala_spec quad_subpixel).
Proof. vm_compute. repeat split; discriminate. Qed.

Lemma escala_dos_cantos_truncados_witness :
  detectar_qrcode_e_calcular_escala (cv := Amostra.cv) imagem_amostra
  = Some (f64_div tamanho_real_cm (f64_of_Z 5)).
Proof.
  refine (proj2 (proj2 (escala_dos_cantos_truncados (cv := Amostra.cv) imagem_amostra
    (Quad (f32_of_Z 2, f32_of_Z 2) (f32_of_Z 7, f32_of_Z 2)
          (f32_of_Z 7, f32_of_Z 7) (f32_of_Z 2, f32_of_Z 7)) [] _)) 2 2 5 _ _).
  - vm_compute; reflexivity.
  - lia.
  - vm_compute; reflexivity.
Defined.

Lemma escala_lados_trocados_witness :
  largura_pixels (quad_astype_int quad_100) = altura_pixels (quad_astype_int quad_100)
  ∧ escala_dos_vertices (Some [trocar_lados quad_100]) = escala_dos_vertices (Some [quad_100]).
Proof.
  split; [vm_compute; reflexivity|].
  apply (escala_lados_trocados quad_100 [] []). vm_compute; reflexivity.
Defined.

Lemma escala_ignora_subpixel_witness :
  quad_astype_int quad_subpixel = quad_astype_int quad_subpixel'
  ∧ escala_dos_vertices (Some [quad_subpixel]) = escala_dos_vertices (Some [quad_subpixel']).
Proof.
  split; [vm_compute; reflexivity|].
  apply (escala_ignora_subpixel quad_subpixel quad_subpixel' [] []). vm_compute; reflexivity.
Defined.

Lemma area_cm2_da_folha_witness :
  ∃ escala_qr c,
    detectar_qrcode_e_calcular_escala (cv := Amostra.cv) (store_de imagem_amostra !!! 0%nat)
    = Some escala_qr
    ∧ maior_contorno (cv := Amostra.cv)
        (contornos_da_mascara (mascara_da_folha (store_de imagem_amostra !!! 0%nat))) = Some c
    ∧ S754_finite false 8754997675608244 (-49)
      = f64_mul (contourArea (OpenCV := Amostra.cv) c) (npy_pow (OpenCV := Amostra.cv) escala_qr 2).
Proof.
  apply (area_cm2_da_folha (cv := Amostra.cv) 0%nat (store_de imagem_amostra)).
  vm_compute; reflexivity.
Defined.

(** The run on the sample array returns the array it was given, and the
    content of that array is no longer what it was. *)
Lemma imagem_de_entrada_modificada :
  store_de imagem_amostra !! 0%nat = Some imagem_amostra
  ∧ res_imagem (segmentar_folha 0%nat (store_de imagem_amostra)).1 = Some 0%nat
  ∧ dom (segmentar_folha 0%nat (store_de imagem_amostra)).2 = dom (store_de imagem_amostra)
  ∧ (segmentar_folha 0%nat (store_de imagem_amostra)).2 !! 0%nat
    ≠ store_de imagem_amostra !! 0%nat.
Proof.
  split; [reflexivity|]. split; [vm_compute; reflexivity|]. split.
  - rewrite segmentar_folha_casos.
    destruct (detectar_qrcode_e_calcular_escala _); [|done].
    destruct (maior_contorno _); [|done]. simpl.
    unfold store_de. rewrite dom_insert_L, dom_singleton_L. set_solver.
  - vm_compute. discriminate.
Qed.

Lemma anotacao_na_propria_imagem_witness :
  res_imagem (segmentar_folha (cv := Amostra.cv) 0%nat (store_de imagem_amostra)).1 = Some 0%nat.
Proof.
  destruct (anotacao_na_propria_imagem (cv := Amostra.cv) 0%nat (store_de imagem_amostra))
    as (c & a & _ & _ & H & _); [vm_compute; reflexivity | exact H].
Defined.

Lemma maior_contorno_spec_witness :
  ∃ c, maior_contorno (cv := Amostra.cv)
         (findContours (OpenCV := Amostra.cv)
            (mascara_da_folha (cv := Amostra.cv) (store_de imagem_amostra !!! 0%nat))
            RETR_EXTERNAL CHAIN_APPROX_SIMPLE) = Some c.
Proof.
  destruct (maior_contorno_spec (cv := Amostra.cv) 0%nat (store_de imagem_amostra)
              (f64_div tamanho_real_cm (f64_of_Z 5))) as (_ & H & _);
    [vm_compute; reflexivity|].
  destruct H as (c & Hc & _); [vm_compute; discriminate|].
  by exists c.
Defined.

(** Two contours of areas 4 and 16, in both orders. *)
Example maior_de_dois_contornos :
  maior_contorno (cv := Amostra.cv) [contorno_pequeno; contorno_grande] = Some contorno_grande
  ∧ maior_contorno (cv := Amostra.cv) [contorno_grande; contorno_pequeno] = Some contorno_grande.
Proof. vm_compute. done. Qed.

Lemma resultado_exclusivo_witness :
  segmentar_folha (cv := Amostra.cv) 0%nat (store_de imagem_sem_qr)
  = ((None, None, Some erro_qr), store_de imagem_sem_qr).
Proof.
  apply (resultado_exclusivo (cv := Amostra.cv) 0%nat (store_de imagem_sem_qr)).
  left. vm_compute; reflexivity.
Defined.

Lemma area_determinada_pela_imagem_witness :
  store_de imagem_amostra !!! 0%nat = store_de_duas !!! 3%nat
  ∧ res_area (segmentar_folha (cv := Amostra.cv) 0%nat (store_de imagem_amostra)).1
    = res_area (segmentar_folha (cv := Amostra.cv) 3%nat store_de_duas).1.
Proof.
  split; [vm_compute; reflexivity|].
  apply (area_determinada_pela_imagem (cv := Amostra.cv) 0%nat 3%nat
           (store_de imagem_amostra) store_de_duas).
  vm_compute; reflexivity.
Defined.

(** The arithmetic of a marker of 100 pixels per side and a contour of
    10000 pixels: 10000 * (3.6 / 100)^2 is printed as 12.96. *)
Example area_de_10000_pixels :
  format_2f (area_cm2 (f64_of_Z 10000) (f64_div tamanho_real_cm (f64_of_Z 100))) = "12.96".
Proof. vm_compute. reflexivity. Qed.

(** The whole run on the sample array: a marker with corners 5 pixels
    apart and a leaf contour of 6 by 5 pixels give 30 * (3.6 / 5)^2. *)
Example run_amostra :
  (segmentar_folha (cv := Amostra.cv) 0%nat (store_de imagem_amostra)).1
  = (Some 0%nat, Some (f64_mul (f64_of_Z 30)
                         (f64_mul (f64_div tamanho_real_cm (f64_of_Z 5))
                                  (f64_div tamanho_real_cm (f64_of_Z 5)))), None)
  ∧ option_map format_2f
      (res_area (segmentar_folha (cv := Amostra.cv) 0%nat (store_de imagem_amostra)).1)
    = Some "15.55"
  ∧ (segmentar_folha (cv := Amostra.cv) 0%nat (store_de imagem_sem_folha)).1
    = (None, None, Some erro_folha).
Proof. vm_compute. done. Qed.

(** * More runs on the sample arrays *)

#[local] Existing Instance AmostraCodecs.cd.

Lemma escala_nunca_nan_witness :
  detectar_qrcode_e_calcular_escala imagem_amostra
  = Some (f64_div tamanho_real_cm (f64_of_Z 5))
  ∧ nao_nan (f64_div tamanho_real_cm (f64_of_Z 5))
  ∧ sem_sinal (f64_div tamanho_real_cm (f64_of_Z 5)).
Proof.
  split; [vm_compute; reflexivity|].
  apply (escala_nunca_nan imagem_amostra). vm_compute; reflexivity.
Defined.

(** A marker turned by the angle of the 3-4-5 triangle, with sides of 100
    pixels. *)
Lemma escala_lados_inteiros_witness :
  escala_dos_vertices (Some [quad_map f32_of_Z (quad_inclinado 20)])
  = Some (f64_div tamanho_real_cm (f64_of_Z (Z.max 100 100))).
Proof.
  apply (escala_lados_inteiros (quad_map f32_of_Z (quad_inclinado 20)) [] 100 100);
    first [lia | vm_compute; reflexivity].
Defined.

Lemma mascara_sem_verde_witness :
  Forall (Forall (λ x, x = 0)) (mascara_da_folha imagem_sem_folha).
Proof.
  apply (mascara_sem_verde imagem_sem_folha).
  match goal with |- ?G => apply (bool_decide_unpack G) end. vm_compute. exact I.
Defined.

Lemma mascara_toda_verde_witness :
  Forall (Forall (λ x, x = 255)) (mascara_da_folha imagem_verde).
Proof.
  apply (mascara_toda_verde imagem_verde).
  match goal with |- ?G => apply (bool_decide_unpack G) end. vm_compute. exact I.
Defined.

Lemma fechamento_nao_remove_witness :
  mask_at (mascara_fechada imagem_amostra) 7 14 = Some 255.
Proof. apply (fechamento_nao_remove imagem_amostra 7 14). vm_compute; reflexivity. Defined.

Lemma abertura_nao_acrescenta_witness :
  mask_at (mascara_da_folha imagem_amostra) 5 12 = Some 255
  ∧ mask_at (mascara_fechada imagem_amostra) 5 12 = Some 255.
Proof.
  split; [vm_compute; reflexivity|].
  apply (abertura_nao_acrescenta imagem_amostra 5 12). vm_compute; reflexivity.
Defined.

(** Two contours of the same greatest area: the first of them is kept. *)
Lemma maior_contorno_primeiro_witness :
  ∃ l1 l2,
    [contorno_pequeno; contorno_grande; (λ p : ponto Z, (p.1 + 20, p.2)) <$> contorno_grande]
    = l1 ++ contorno_grande :: l2
    ∧ (∀ y, y ∈ l1 → f64_gt (contourArea contorno_grande) (contourArea y) = true)
    ∧ (∀ y, y ∈ l2 → f64_gt (contourArea y) (contourArea contorno_grande) = false).
Proof.
  apply (maior_contorno_primeiro
           [contorno_pequeno; contorno_grande;
            (λ p : ponto Z, (p.1 + 20, p.2)) <$> contorno_grande] contorno_grande).
  - intros y Hy. repeat (apply elem_of_cons in Hy as [-> | Hy]; [vm_compute; exact I|]).
    by apply elem_of_nil in Hy.
  - vm_compute; reflexivity.
Defined.

Lemma processar_200_witness :
  ∃ bs img escala_qr c,
    files (pedido_de imagem_amostra) !! "imagem" = Some bs
    ∧ imdecode bs IMREAD_COLOR = Some img
    ∧ detectar_qrcode_e_calcular_escala img = Some escala_qr
    ∧ maior_contorno (findContours (mascara_da_folha img) RETR_EXTERNAL CHAIN_APPROX_SIMPLE)
      = Some c.
Proof.
  destruct (processar_200 (pedido_de imagem_amostra) ∅
              (corpo_de (processar (pedido_de imagem_amostra) ∅).1))
    as (bs & img & e & c & H1 & H2 & H3 & H4 & _); [vm_compute; reflexivity|].
  by exists bs, img, e, c.
Defined.

Lemma processar_400_witness :
  (processar pedido_vazio ∅).2 = ∅
  ∧ (processar pedido_invalido ∅).2 = ∅.
Proof.
  split.
  - apply (processar_400 pedido_vazio ∅ (corpo_de (processar pedido_vazio ∅).1)).
    vm_compute; reflexivity.
  - apply (processar_400 pedido_invalido ∅ (corpo_de (processar pedido_invalido ∅).1)).
    vm_compute; reflexivity.
Defined.

Lemma processar_500_witness :
  ∃ bs img,
    files (pedido_de imagem_sem_qr) !! "imagem" = Some bs
    ∧ imdecode bs IMREAD_COLOR = Some img
    ∧ (processar (pedido_de imagem_sem_qr) ∅).2 = <[fresh (dom (∅ : store)) := img]> ∅.
Proof.
  destruct (processar_500 (pedido_de imagem_sem_qr) ∅
              (corpo_de (processar (pedido_de imagem_sem_qr) ∅).1))
    as (bs & img & H1 & H2 & H3 & _); [vm_compute; reflexivity|].
  by exists bs, img.
Defined.

Lemma processar_isolado_witness :
  (processar (pedido_de imagem_amostra) store_de_duas).2 !! 3%nat = Some imagem_amostra.
Proof.
  rewrite (proj1 (proj2 (processar_isolado (pedido_de imagem_amostra) store_de_duas ∅)) 3%nat).
  - reflexivity.
  - vm_compute. set_solver.
Defined.

(** The three kinds of response on the sample requests. *)
Example processar_amostras :
  (∃ corpo, (processar (pedido_de imagem_amostra) ∅).1 = Resposta corpo 200
            ∧ corpo !! "area_foliar"
              = Some (VNum (f64_mul (f64_of_Z 30)
                              (f64_mul (f64_div tamanho_real_cm (f64_of_Z 5))
                                       (f64_div tamanho_real_cm (f64_of_Z 5))))))
  ∧ (processar pedido_vazio ∅).1 = Resposta {[ "erro" := VStr erro_sem_imagem ]} 400
  ∧ (processar pedido_invalido ∅).1 = Resposta {[ "erro" := VStr erro_decodificar ]} 400
  ∧ (processar (pedido_de imagem_sem_qr) ∅).1 = Resposta {[ "erro" := VStr erro_qr ]} 500
  ∧ (processar (pedido_de imagem_sem_folha) ∅).1
    = Resposta {[ "erro" := VStr erro_folha ]} 500.
Proof.
  split; [eexists; split; vm_compute; reflexivity|].
  repeat split; vm_compute; reflexivity.
Qed.
